(** * AMRAH-FLOUR-MILL storefront: the [App] component

    A shallow embedding of the storefront's top-level component
    (the filter/sort derivation, the facet lists, the view controller, the
    two data loads) and the properties its specification states about it.

    Layout: the JavaScript values and library functions the component uses
    ([JS]), the entity types of [types.ts], the derivation
    [filteredAndSortedProducts] (pure, and once more over a heap of arrays),
    the component's state, its event handlers, effects and render function;
    then the lemmas. *)

From Stdlib Require Import List String Ascii Bool Arith ZArith NArith Lia.
From Stdlib Require Import Permutation Sorted DecimalString DecimalPos DecimalN.
From Stdlib Require QArith.
From stdpp Require Import gmap.
Import ListNotations.

Local Open Scope string_scope.
Local Open Scope list_scope.

(** ** JavaScript values and built-ins *)

Module JS.

(** A JavaScript [number]. The finite values are kept exact (a rational); the
    two infinities and NaN are explicit because the component uses
    [Infinity] as a price bound and because comparisons and the sort
    treat NaN specially. Rounding is not modelled: the component only
    compares numbers and looks at the sign of a difference, and IEEE
    subtraction of two finite doubles has the sign of the exact difference. *)
Inductive number : Type :=
| Fin (q : QArith_base.Q)
| Infinity
| NegInfinity
| NaN.

Definition Qlt_bool (a b : QArith_base.Q) : bool :=
  negb (QArith_base.Qle_bool b a).

(** [a < b] *)
Definition lt (a b : number) : bool :=
  match a, b with
  | NaN, _ | _, NaN => false
  | Fin x, Fin y => Qlt_bool x y
  | Fin _, Infinity => true
  | Fin _, NegInfinity => false
  | Infinity, _ => false
  | NegInfinity, NegInfinity => false
  | NegInfinity, _ => true
  end.

(** [a <= b] *)
Definition le (a b : number) : bool :=
  match a, b with
  | NaN, _ | _, NaN => false
  | _, _ => negb (lt b a)
  end.

(** [a > b] and [a >= b] *)
Definition gt (a b : number) : bool := lt b a.
Definition ge (a b : number) : bool := le b a.

(** [a === b] on numbers *)
Definition strict_eq (a b : number) : bool :=
  match a, b with
  | Fin x, Fin y => QArith_base.Qeq_bool x y
  | Infinity, Infinity => true
  | NegInfinity, NegInfinity => true
  | _, _ => false
  end.

(** [a - b] *)
Definition sub (a b : number) : number :=
  match a, b with
  | NaN, _ | _, NaN => NaN
  | Fin x, Fin y => Fin (QArith_base.Qminus x y)
  | Fin _, Infinity => NegInfinity
  | Fin _, NegInfinity => Infinity
  | Infinity, Infinity => NaN
  | Infinity, _ => Infinity
  | NegInfinity, NegInfinity => NaN
  | NegInfinity, _ => NegInfinity
  end.

Definition zero : number := Fin (QArith_base.Qmake 0 1).
Definition of_Z (z : Z) : number := Fin (QArith_base.Qmake z 1).

(** A string is held as the bytes of its UTF-8 encoding. On well-formed text
    a search for a part of a string finds the same on the bytes as on the
    code units of the language, and equality is the same. *)

(** The case mapping of the ASCII letters. *)
Definition lowerChar (c : ascii) : ascii :=
  let n := nat_of_ascii c in
  if (65 <=? n)%nat && (n <=? 90)%nat then ascii_of_nat (n + 32) else c.

Definition upperChar (c : ascii) : ascii :=
  let n := nat_of_ascii c in
  if (97 <=? n)%nat && (n <=? 122)%nat then ascii_of_nat (n - 32) else c.

Fixpoint mapString (f : ascii -> ascii) (s : string) : string :=
  match s with
  | EmptyString => EmptyString
  | String c r => String (f c) (mapString f r)
  end.

(** [String.prototype.toLowerCase]. The conversion follows the Unicode tables
    of the language and their context rules; it is not a map on single
    characters and can change the length of a text. The tables are not part
    of the component: the conversion is a parameter, with the one fact about
    it that the component's defaults rely on. *)
Class CaseConversion : Type := {
  toLowerCase : string -> string;
  toLowerCase_empty : toLowerCase "" = ""
}.

(** The conversion restricted to the ASCII letters: what the language does on
    ASCII text. It is the conversion of the examples. *)
Definition toLowerCaseASCII (s : string) : string := mapString lowerChar s.

#[global] Instance asciiCase : CaseConversion :=
  {| toLowerCase := toLowerCaseASCII; toLowerCase_empty := eq_refl |}.

(** [String.prototype.toUpperCase] on ASCII text. The component applies it
    to the text of a number in base 36 only (digits, the letters a-z and a
    dot), on which the conversion of the language is this map. *)
Definition toUpperCase (s : string) : string := mapString upperChar s.

(** [s.startsWith(t)] *)
Fixpoint startsWith (s t : string) : bool :=
  match t, s with
  | EmptyString, _ => true
  | String _ _, EmptyString => false
  | String d t', String c s' => Ascii.eqb c d && startsWith s' t'
  end.

(** [s.includes(t)]: [t] occurs in [s] at some position. *)
Fixpoint includes (s t : string) : bool :=
  startsWith s t ||
  match s with
  | EmptyString => false
  | String _ s' => includes s' t
  end.

(** [s.substr(start, len)] for non-negative arguments. *)
Fixpoint substr (start len : nat) (s : string) : string :=
  match start, len, s with
  | _, _, EmptyString => EmptyString
  | S start', _, String _ s' => substr start' len s'
  | O, O, _ => EmptyString
  | O, S len', String c s' => String c (substr O len' s')
  end.

(** A string is truthy when it is not empty; [null] is falsy. *)
Definition truthy (o : option string) : bool :=
  match o with
  | Some (String _ _) => true
  | _ => false
  end.

(** The decimal text of a non-negative integer, as a template literal
    prints it. *)
Definition decimal (n : N) : string := NilZero.string_of_uint (N.to_uint n).

(** [Array.prototype.includes] on an array of strings. *)
Definition Array_includes (l : list string) (x : string) : bool :=
  existsb (String.eqb x) l.

(** [Array.prototype.filter] *)
Definition Array_filter {A : Type} (f : A -> bool) (l : list A) : list A :=
  List.filter f l.

(** [Array.prototype.sort] with a comparator. The language requires the sort
    to be stable and leaves the algorithm open; with a consistent comparator
    every conforming implementation returns the same array. It is modelled as
    a stable insertion sort. As in the language's SortCompare, a comparator
    result of NaN counts as 0, and [x] goes after [y] only when the
    comparator returns a value above 0. *)
Definition sortCompare {A : Type} (comparefn : A -> A -> number) (x y : A) : number :=
  match comparefn x y with
  | NaN => zero
  | v => v
  end.

(** [goesAfter comparefn x y]: the sort has to place [x] behind [y]. *)
Definition goesAfter {A : Type} (comparefn : A -> A -> number) (x y : A) : bool :=
  gt (sortCompare comparefn x y) zero.

Fixpoint sortInsert {A : Type} (comparefn : A -> A -> number) (x : A) (l : list A) : list A :=
  match l with
  | [] => [x]
  | y :: l' =>
      if goesAfter comparefn x y
      then y :: sortInsert comparefn x l'
      else x :: y :: l'
  end.

Fixpoint Array_sort {A : Type} (comparefn : A -> A -> number) (l : list A) : list A :=
  match l with
  | [] => []
  | x :: l' => sortInsert comparefn x (Array_sort comparefn l')
  end.

(** A [Set] of strings keeps its members in insertion order; adding a member
    that is already present changes nothing. *)
Definition Set_add (members : list string) (x : string) : list string :=
  if Array_includes members x then members else members ++ [x].

(** [new Set(iterable)] *)
Definition new_Set (l : list string) : list string :=
  fold_left Set_add l [].

(** [Array.from(set)] *)
Definition Array_from (members : list string) : list string := members.

End JS.

(** ** Entity types ([types.ts]) *)

Record Product : Type := mkProduct {
  id : string;
  name : string;
  description : string;
  price : JS.number;
  rating : JS.number;
  imageUrls : list string;
  category : string;
  brand : string;
  stock : JS.number
}.

Record CartItem : Type := mkCartItem {
  item : Product;
  quantity : nat
}.

Inductive UserRole : Type := role_admin | role_manager | role_editor.

Definition UserRole_name (r : UserRole) : string :=
  match r with
  | role_admin => "admin"
  | role_manager => "manager"
  | role_editor => "editor"
  end.

Inductive NotificationType : Type := order | stock_alert | review.

Record AdminNotification : Type := mkNotification {
  notif_id : string;
  type : NotificationType;
  message : string;
  date : string;
  isRead : bool
}.

(** ** The filter and sort derivation *)

(** The filter and sort state of the component. *)
Record Filters : Type := mkFilters {
  searchTerm : string;
  selectedCategories : list string;
  selectedBrands : list string;
  priceRange : JS.number * JS.number;
  minRating : JS.number;
  sortBy : string
}.

(** The callback of [products.filter]. *)
Definition matchesFilters {conversion : JS.CaseConversion} (f : Filters) (p : Product) : bool :=
  let matchesSearch :=
    JS.includes (JS.toLowerCase (name p)) (JS.toLowerCase (searchTerm f)) in
  let matchesCategory :=
    (length (selectedCategories f) =? 0)%nat
    || JS.Array_includes (selectedCategories f) (category p) in
  let matchesBrand :=
    (length (selectedBrands f) =? 0)%nat
    || JS.Array_includes (selectedBrands f) (brand p) in
  let matchesPrice :=
    JS.ge (price p) (fst (priceRange f)) && JS.le (price p) (snd (priceRange f)) in
  let matchesRating := JS.ge (rating p) (minRating f) in
  matchesSearch && matchesCategory && matchesBrand && matchesPrice && matchesRating.

(** The comparator of [.sort]. *)
Definition compareProducts (sortKey : string) (a b : Product) : JS.number :=
  if String.eqb sortKey "price_asc" then JS.sub (price a) (price b)
  else if String.eqb sortKey "price_desc" then JS.sub (price b) (price a)
  else if String.eqb sortKey "rating_desc" then JS.sub (rating b) (rating a)
  else JS.zero.

Definition filteredAndSortedProducts {conversion : JS.CaseConversion}
    (products : list Product) (f : Filters) : list Product :=
  JS.Array_sort (compareProducts (sortBy f))
    (JS.Array_filter (matchesFilters f) products).

(** The facet lists. *)
Definition categories (products : list Product) : list string :=
  JS.Array_from (JS.new_Set (map category products)).

Definition brands (products : list Product) : list string :=
  JS.Array_from (JS.new_Set (map brand products)).

(** ** The derivation over a heap of arrays

    Arrays are mutable objects: [filter] allocates a new array, [sort] sorts
    the array it is called on in place and returns that same array. The heap
    maps an array reference to the array's current elements. *)

Abbreviation ref := nat.

Abbreviation heap := (gmap nat (list Product)).

(** A computation on the heap that may fail (on a dangling reference). *)
Definition Heap (A : Type) : Type := heap -> option (A * heap).

Definition ret {A : Type} (x : A) : Heap A := fun h => Some (x, h).

Definition bind {A B : Type} (m : Heap A) (k : A -> Heap B) : Heap B :=
  fun h =>
    match m h with
    | Some (x, h') => k x h'
    | None => None
    end.

Notation "'do' x <- m ; k" := (bind m (fun x => k))
  (at level 10, x name, m at level 100, k at level 200).

Definition read (a : ref) : Heap (list Product) :=
  fun h => match h !! a with Some l => Some (l, h) | None => None end.

Definition write (a : ref) (l : list Product) : Heap unit :=
  fun h => match h !! a with Some _ => Some (tt, <[a:=l]> h) | None => None end.

Definition alloc (l : list Product) : Heap ref :=
  fun h => let a := fresh (dom h) in Some (a, <[a:=l]> h).

Definition Array_filter_ref (f : Product -> bool) (a : ref) : Heap ref :=
  do l <- read a; alloc (JS.Array_filter f l).

Definition Array_sort_ref (comparefn : Product -> Product -> JS.number) (a : ref) : Heap ref :=
  do l <- read a; do u <- write a (JS.Array_sort comparefn l); ret a.

Definition filteredAndSortedProducts_ref {conversion : JS.CaseConversion}
    (products : ref) (f : Filters) : Heap ref :=
  do filtered <- Array_filter_ref (matchesFilters f) products;
  Array_sort_ref (compareProducts (sortBy f)) filtered.

(** ** The component's state *)

Inductive View : Type := store | admin | dashboard | checkout | confirmation | contact.

Definition View_name (v : View) : string :=
  match v with
  | store => "store"
  | admin => "admin"
  | dashboard => "dashboard"
  | checkout => "checkout"
  | confirmation => "confirmation"
  | contact => "contact"
  end.

Definition View_eqb (a b : View) : bool := String.eqb (View_name a) (View_name b).

(** Modelled from the spec: the [useAuth] hook is not part of the sources. It
    exposes a logged-in flag, a role (a string, or [null]; [types.ts] names
    the roles [admin], [manager] and [editor], nothing checks at run time
    that the role is one of them), a
    display name, and [logout], which ends the session. *)
Record Auth : Type := mkAuth {
  isLoggedIn : bool;
  role : option string;
  user : option string
}.

Definition logout (a : Auth) : Auth :=
  {| isLoggedIn := false; role := None; user := None |}.

(** Modelled from the spec: the [useCart] hook is not part of the sources. It
    exposes the number of items in the cart and [clearCart], which empties
    the cart. *)
Definition itemCount (cart : list CartItem) : nat :=
  list_sum (map quantity cart).

Definition clearCart (cart : list CartItem) : list CartItem := [].

(** The state of [App]: its [useState] cells, the state of the hooks it
    reads, and the part of the environment its behaviour depends on (the
    requests in flight and the arguments of each [console.error] call, latest
    first). The wishlist, the theme and the
    selected product do not interact with the rest and are left out. *)
Record AppState : Type := mkApp {
  products : list Product;
  isLoading : bool;
  error : option string;
  view : View;
  isCartOpen : bool;
  isLoginModalOpen : bool;
  lastOrderId : option string;
  isMobileMenuOpen : bool;
  adminNotifications : list AdminNotification;
  auth : Auth;
  cart : list CartItem;
  filters : Filters;
  productRequests : nat;
  notificationRequests : nat;
  console : list (list string)
}.

Definition setProducts (x : list Product) (s : AppState) : AppState :=
  mkApp x (isLoading s) (error s) (view s) (isCartOpen s) (isLoginModalOpen s)
    (lastOrderId s) (isMobileMenuOpen s) (adminNotifications s) (auth s) (cart s)
    (filters s) (productRequests s) (notificationRequests s) (console s).

Definition setIsLoading (x : bool) (s : AppState) : AppState :=
  mkApp (products s) x (error s) (view s) (isCartOpen s) (isLoginModalOpen s)
    (lastOrderId s) (isMobileMenuOpen s) (adminNotifications s) (auth s) (cart s)
    (filters s) (productRequests s) (notificationRequests s) (console s).

Definition setError (x : option string) (s : AppState) : AppState :=
  mkApp (products s) (isLoading s) x (view s) (isCartOpen s) (isLoginModalOpen s)
    (lastOrderId s) (isMobileMenuOpen s) (adminNotifications s) (auth s) (cart s)
    (filters s) (productRequests s) (notificationRequests s) (console s).

Definition setView (x : View) (s : AppState) : AppState :=
  mkApp (products s) (isLoading s) (error s) x (isCartOpen s) (isLoginModalOpen s)
    (lastOrderId s) (isMobileMenuOpen s) (adminNotifications s) (auth s) (cart s)
    (filters s) (productRequests s) (notificationRequests s) (console s).

Definition setIsCartOpen (x : bool) (s : AppState) : AppState :=
  mkApp (products s) (isLoading s) (error s) (view s) x (isLoginModalOpen s)
    (lastOrderId s) (isMobileMenuOpen s) (adminNotifications s) (auth s) (cart s)
    (filters s) (productRequests s) (notificationRequests s) (console s).

Definition setLoginModalOpen (x : bool) (s : AppState) : AppState :=
  mkApp (products s) (isLoading s) (error s) (view s) (isCartOpen s) x
    (lastOrderId s) (isMobileMenuOpen s) (adminNotifications s) (auth s) (cart s)
    (filters s) (productRequests s) (notificationRequests s) (console s).

Definition setLastOrderId (x : option string) (s : AppState) : AppState :=
  mkApp (products s) (isLoading s) (error s) (view s) (isCartOpen s) (isLoginModalOpen s)
    x (isMobileMenuOpen s) (adminNotifications s) (auth s) (cart s)
    (filters s) (productRequests s) (notificationRequests s) (console s).

Definition setMobileMenuOpen (x : bool) (s : AppState) : AppState :=
  mkApp (products s) (isLoading s) (error s) (view s) (isCartOpen s) (isLoginModalOpen s)
    (lastOrderId s) x (adminNotifications s) (auth s) (cart s)
    (filters s) (productRequests s) (notificationRequests s) (console s).

Definition setAdminNotifications (x : list AdminNotification) (s : AppState) : AppState :=
  mkApp (products s) (isLoading s) (error s) (view s) (isCartOpen s) (isLoginModalOpen s)
    (lastOrderId s) (isMobileMenuOpen s) x (auth s) (cart s)
    (filters s) (productRequests s) (notificationRequests s) (console s).

Definition setAuth (x : Auth) (s : AppState) : AppState :=
  mkApp (products s) (isLoading s) (error s) (view s) (isCartOpen s) (isLoginModalOpen s)
    (lastOrderId s) (isMobileMenuOpen s) (adminNotifications s) x (cart s)
    (filters s) (productRequests s) (notificationRequests s) (console s).

Definition setCart (x : list CartItem) (s : AppState) : AppState :=
  mkApp (products s) (isLoading s) (error s) (view s) (isCartOpen s) (isLoginModalOpen s)
    (lastOrderId s) (isMobileMenuOpen s) (adminNotifications s) (auth s) x
    (filters s) (productRequests s) (notificationRequests s) (console s).

Definition setFilters (x : Filters) (s : AppState) : AppState :=
  mkApp (products s) (isLoading s) (error s) (view s) (isCartOpen s) (isLoginModalOpen s)
    (lastOrderId s) (isMobileMenuOpen s) (adminNotifications s) (auth s) (cart s)
    x (productRequests s) (notificationRequests s) (console s).

Definition setProductRequests (x : nat) (s : AppState) : AppState :=
  mkApp (products s) (isLoading s) (error s) (view s) (isCartOpen s) (isLoginModalOpen s)
    (lastOrderId s) (isMobileMenuOpen s) (adminNotifications s) (auth s) (cart s)
    (filters s) x (notificationRequests s) (console s).

Definition setNotificationRequests (x : nat) (s : AppState) : AppState :=
  mkApp (products s) (isLoading s) (error s) (view s) (isCartOpen s) (isLoginModalOpen s)
    (lastOrderId s) (isMobileMenuOpen s) (adminNotifications s) (auth s) (cart s)
    (filters s) (productRequests s) x (console s).

Definition console_error (msg : list string) (s : AppState) : AppState :=
  mkApp (products s) (isLoading s) (error s) (view s) (isCartOpen s) (isLoginModalOpen s)
    (lastOrderId s) (isMobileMenuOpen s) (adminNotifications s) (auth s) (cart s)
    (filters s) (productRequests s) (notificationRequests s) (msg :: console s).

(** ** Event handlers *)

Definition setSearchTerm (x : string) (f : Filters) : Filters :=
  mkFilters x (selectedCategories f) (selectedBrands f) (priceRange f) (minRating f) (sortBy f).

Definition setSelectedCategories (x : list string) (f : Filters) : Filters :=
  mkFilters (searchTerm f) x (selectedBrands f) (priceRange f) (minRating f) (sortBy f).

Definition setSelectedBrands (x : list string) (f : Filters) : Filters :=
  mkFilters (searchTerm f) (selectedCategories f) x (priceRange f) (minRating f) (sortBy f).

Definition setPriceRange (x : JS.number * JS.number) (f : Filters) : Filters :=
  mkFilters (searchTerm f) (selectedCategories f) (selectedBrands f) x (minRating f) (sortBy f).

Definition setMinRating (x : JS.number) (f : Filters) : Filters :=
  mkFilters (searchTerm f) (selectedCategories f) (selectedBrands f) (priceRange f) x (sortBy f).

Definition setSortBy (x : string) (f : Filters) : Filters :=
  mkFilters (searchTerm f) (selectedCategories f) (selectedBrands f) (priceRange f) (minRating f) x.

(** [prev.includes(x) ? prev.filter(c => c !== x) : [...prev, x]] *)
Definition toggleMember (x : string) (prev : list string) : list string :=
  if JS.Array_includes prev x
  then JS.Array_filter (fun c => negb (String.eqb c x)) prev
  else prev ++ [x].

Definition handleCategoryChange (c : string) (s : AppState) : AppState :=
  setFilters (setSelectedCategories (toggleMember c (selectedCategories (filters s))) (filters s)) s.

Definition handleBrandChange (b : string) (s : AppState) : AppState :=
  setFilters (setSelectedBrands (toggleMember b (selectedBrands (filters s))) (filters s)) s.

Definition handleCheckout (s : AppState) : AppState := setView checkout s.

(** The order identifier. [now] is the value of [Date.now()] and [random36]
    the text of [Math.random().toString(36)], both read from the
    environment by the handler. *)
Definition orderSuffix (random36 : string) : string :=
  JS.toUpperCase (JS.substr 2 5 random36).

Definition orderId (now : N) (random36 : string) : string :=
  "ORD-" ++ JS.decimal now ++ "-" ++ orderSuffix random36.

Definition handlePlaceOrder (now : N) (random36 : string) (s : AppState) : AppState :=
  setView confirmation
    (setCart (clearCart (cart s))
       (setLastOrderId (Some (orderId now random36)) s)).

Definition handleLoginSuccess (s : AppState) : AppState :=
  setView admin (setLoginModalOpen false s).

(** [() => { auth.logout(); setView('store'); }] *)
Definition handleLogout (s : AppState) : AppState :=
  setView store (setAuth (logout (auth s)) s).

(** The options of the sort selector, the rating buttons and the price-range
    buttons of the store view. *)
Definition sortOptions : list string :=
  ["relevance"; "price_asc"; "price_desc"; "rating_desc"].

Definition ratingButtons : list Z := [4; 3; 2; 1]%Z.

Definition priceRangeButtons : list (JS.number * JS.number) :=
  [ (JS.of_Z 0, JS.of_Z 50);
    (JS.of_Z 50, JS.of_Z 200);
    (JS.of_Z 200, JS.of_Z 1000);
    (JS.of_Z 1000, JS.Infinity);
    (JS.of_Z 0, JS.Infinity) ].

(** ** Effects *)

Definition productLoadFailed : string :=
  "Failed to load products. Please check your API key and network connection.".

Definition notificationLoadFailed : string :=
  "Failed to fetch admin notifications for header".

(** The effect on [auth.isLoggedIn, auth.role]: start a notification request,
    or clear the list. *)
Definition notificationsEffect (s : AppState) : AppState :=
  if isLoggedIn (auth s) && JS.truthy (role (auth s))
  then setNotificationRequests (S (notificationRequests s)) s
  else setAdminNotifications [] s.

(** The effect on [products.length]: the part of [fetchProducts] up to the
    [await]. *)
Definition productsEffect (s : AppState) : AppState :=
  if (length (products s) =? 0)%nat
  then setProductRequests (S (productRequests s)) (setError None (setIsLoading true s))
  else s.

(** The effect on [view]. *)
Definition viewEffect (s : AppState) : AppState :=
  setMobileMenuOpen false (setIsCartOpen false s).

Definition role_eqb (a b : option string) : bool :=
  match a, b with
  | Some x, Some y => String.eqb x y
  | None, None => true
  | _, _ => false
  end.

Definition authDepsChanged (old new : AppState) : bool :=
  negb (Bool.eqb (isLoggedIn (auth old)) (isLoggedIn (auth new))
        && role_eqb (role (auth old)) (role (auth new))).

Definition productsDepsChanged (old new : AppState) : bool :=
  negb (length (products old) =? length (products new))%nat.

Definition viewDepsChanged (old new : AppState) : bool :=
  negb (View_eqb (view old) (view new)).

(** After a handler has run and the component has rendered again, each effect
    whose dependencies differ from those of the previous render runs, in
    the order of declaration. No effect writes a dependency of another. *)
Definition runEffects (old new : AppState) : AppState :=
  let s1 := if authDepsChanged old new then notificationsEffect new else new in
  let s2 := if productsDepsChanged old new then productsEffect s1 else s1 in
  if viewDepsChanged old new then viewEffect s2 else s2.

Definition defaultFilters : Filters :=
  mkFilters "" [] [] (JS.of_Z 0, JS.Infinity) (JS.of_Z 0) "relevance".

(** The first render: the initial values of the [useState] cells, with the
    hooks' state as found in storage. *)
Definition initialState (a : Auth) (c : list CartItem) : AppState :=
  mkApp [] true None store false false None false [] a c defaultFilters 0 0 [].

(** On mount every effect runs once. *)
Definition mount (s : AppState) : AppState :=
  viewEffect (productsEffect (notificationsEffect s)).

(** ** Rendering *)

Inductive GridPart : Type :=
| LoadingSkeleton (placeholders : nat)
| ErrorPanel (msg : string)
| ProductGrid (cards : list Product)
| NoProductsFound.

(** The text of a string that may be [null]. *)
Definition textOf (o : option string) : string :=
  match o with Some m => m | None => "" end.

(** The product grid region of the store view. *)
Definition gridRegion {conversion : JS.CaseConversion} (s : AppState) : list GridPart :=
  let shown := filteredAndSortedProducts (products s) (filters s) in
  (if isLoading s then [LoadingSkeleton 8] else [])
  ++ (if JS.truthy (error s) then [ErrorPanel (textOf (error s))] else [])
  ++ (if negb (isLoading s) && negb (JS.truthy (error s)) then [ProductGrid shown] else [])
  ++ (if negb (isLoading s) && negb (JS.truthy (error s)) && (length shown =? 0)%nat
      then [NoProductsFound] else []).

Inductive Content : Type :=
| StoreView (grid : list GridPart)
| ContactView
| UserDashboardView
| CheckoutView
| OrderConfirmationView (shownOrderId : option string).

Definition renderCurrentView {conversion : JS.CaseConversion} (s : AppState) : Content :=
  match view s with
  | dashboard => UserDashboardView
  | checkout => CheckoutView
  | confirmation => OrderConfirmationView (lastOrderId s)
  | contact => ContactView
  | _ => StoreView (gridRegion s)
  end.

Inductive Page : Type :=
| AdminView (username : string) (userRole : string)
| StandardPage (content : Content) (footer : bool) (miniCart : bool) (loginModal : bool).

(** [auth.role && ['admin', 'manager', 'editor'].includes(auth.role)] *)
Definition recognizedRole (r : option string) : bool :=
  JS.truthy r && JS.Array_includes ["admin"; "manager"; "editor"] (textOf r).

Definition render {conversion : JS.CaseConversion} (s : AppState) : Page :=
  if View_eqb (view s) admin && isLoggedIn (auth s) && JS.truthy (role (auth s))
  then
    AdminView (if JS.truthy (user (auth s)) then textOf (user (auth s)) else "Admin")
      (textOf (role (auth s)))
  else
      StandardPage (renderCurrentView s)
        (negb (JS.startsWith (View_name (view s)) "admin"))
        (isCartOpen s)
        (isLoginModalOpen s).

Definition rendersAdminView {conversion : JS.CaseConversion} (s : AppState) : bool :=
  match render s with AdminView _ _ => true | StandardPage _ _ _ _ => false end.

Definition rendersStoreView {conversion : JS.CaseConversion} (s : AppState) : bool :=
  match render s with
  | StandardPage (StoreView _) _ _ _ => true
  | _ => false
  end.

(** ** Events

    What can happen to the component between two renders: a click on one of
    the controls it renders, a callback from one of the components it
    renders, the completion of a request it started, or a change of the
    state of a hook made by another component. *)
Inductive Event : Type :=
| NavigateStore            (* logo, Home, Products *)
| NavigateContact
| NavigateAdmin            (* the Admin button *)
| NavigateAccount
| ClickLogout
| ClickAdminLogin
| ClickWishlist
| ClickCart
| ToggleMobileMenu
| MiniCartClose
| MiniCartCheckout
| LoginModalClose
| LoginModalSuccess
| ChangeSearch (term : string)
| ChangeSort (key : string)
| ClickRating (r : Z)
| ToggleCategory (c : string)
| ToggleBrand (b : string)
| ClickPriceRange (range : JS.number * JS.number)
| ViewNavigateToStore      (* onNavigateToStore of the dashboard, checkout, confirmation *)
| PlaceOrder (now : N) (random36 : string)
| AdminNavigateToStore
| AdminLogout
| AdminSetProducts (ps : list Product)
| ProductsResolved (ps : list Product)
| ProductsRejected (err : string)
| NotificationsResolved (ns : list AdminNotification)
| NotificationsRejected (err : string)
| AuthChanged (a : Auth)
| CartChanged (c : list CartItem).

Definition pairIn (x : JS.number * JS.number) (l : list (JS.number * JS.number)) : bool :=
  existsb (fun y => JS.strict_eq (fst x) (fst y) && JS.strict_eq (snd x) (snd y)) l.

(** Whether the control or callback of an event exists in the page rendered
    for [s] (for a completion: whether such a request is in flight). *)
Definition enabled {conversion : JS.CaseConversion} (e : Event) (s : AppState) : bool :=
  let page := negb (rendersAdminView s) in
  match e with
  | NavigateStore | NavigateContact | ClickWishlist | ClickCart
  | ToggleMobileMenu | MiniCartClose | MiniCartCheckout => page
  | NavigateAdmin => page && isLoggedIn (auth s) && recognizedRole (role (auth s))
  | NavigateAccount | ClickLogout => page && isLoggedIn (auth s)
  | ClickAdminLogin => page && negb (isLoggedIn (auth s))
  | LoginModalClose | LoginModalSuccess => page && isLoginModalOpen s
  | ChangeSearch _ => rendersStoreView s
  | ChangeSort k => rendersStoreView s && JS.Array_includes sortOptions k
  | ClickRating r => rendersStoreView s && existsb (Z.eqb r) ratingButtons
  | ToggleCategory c => rendersStoreView s && JS.Array_includes (categories (products s)) c
  | ToggleBrand b => rendersStoreView s && JS.Array_includes (brands (products s)) b
  | ClickPriceRange r => rendersStoreView s && pairIn r priceRangeButtons
  | ViewNavigateToStore =>
      page && (View_eqb (view s) dashboard || View_eqb (view s) checkout
               || View_eqb (view s) confirmation)
  | PlaceOrder _ _ => page && View_eqb (view s) checkout
  | AdminNavigateToStore | AdminLogout | AdminSetProducts _ => rendersAdminView s
  | ProductsResolved _ | ProductsRejected _ => negb (productRequests s =? 0)%nat
  | NotificationsResolved _ | NotificationsRejected _ => negb (notificationRequests s =? 0)%nat
  | AuthChanged _ | CartChanged _ => true
  end.

(** The handler of each event. *)
Definition handle (e : Event) (s : AppState) : AppState :=
  match e with
  | NavigateStore | ViewNavigateToStore | AdminNavigateToStore => setView store s
  | NavigateContact => setView contact s
  | NavigateAdmin => setView admin s
  | NavigateAccount => setView dashboard s
  | ClickLogout | AdminLogout => handleLogout s
  | ClickAdminLogin => setLoginModalOpen true s
  | ClickWishlist =>
      if isLoggedIn (auth s) then setView dashboard s else setLoginModalOpen true s
  | ClickCart => setIsCartOpen true s
  | ToggleMobileMenu => setMobileMenuOpen (negb (isMobileMenuOpen s)) s
  | MiniCartClose => setIsCartOpen false s
  | MiniCartCheckout => handleCheckout s
  | LoginModalClose => setLoginModalOpen false s
  | LoginModalSuccess => handleLoginSuccess s
  | ChangeSearch term => setFilters (setSearchTerm term (filters s)) s
  | ChangeSort key => setFilters (setSortBy key (filters s)) s
  | ClickRating r =>
      setFilters
        (setMinRating
           (if JS.strict_eq (minRating (filters s)) (JS.of_Z r) then JS.of_Z 0 else JS.of_Z r)
           (filters s)) s
  | ToggleCategory c => handleCategoryChange c s
  | ToggleBrand b => handleBrandChange b s
  | ClickPriceRange r => setFilters (setPriceRange r (filters s)) s
  | PlaceOrder now random36 => handlePlaceOrder now random36 s
  | AdminSetProducts ps => setProducts ps s
  | ProductsResolved ps =>
      setIsLoading false
        (setProducts ps (setProductRequests (pred (productRequests s)) s))
  | ProductsRejected err =>
      setIsLoading false
        (console_error [err]
           (setError (Some productLoadFailed)
              (setProductRequests (pred (productRequests s)) s)))
  | NotificationsResolved ns =>
      setAdminNotifications ns
        (setNotificationRequests (pred (notificationRequests s)) s)
  | NotificationsRejected err =>
      console_error [notificationLoadFailed; err]
        (setNotificationRequests (pred (notificationRequests s)) s)
  | AuthChanged a => setAuth a s
  | CartChanged c => setCart c s
  end.

(** One transition: the event must be possible in [s]; its handler runs, the
    component renders, the effects run. *)
Definition step {conversion : JS.CaseConversion} (e : Event) (s : AppState) : option AppState :=
  if enabled e s then Some (runEffects s (handle e s)) else None.

(** An event that is not possible leaves the state as it is. *)
Definition dispatch {conversion : JS.CaseConversion} (e : Event) (s : AppState) : AppState :=
  match step e s with
  | Some s' => s'
  | None => s
  end.

Inductive reachable {conversion : JS.CaseConversion} : AppState -> Prop :=
| reachable_mount (a : Auth) (c : list CartItem) :
    reachable (mount (initialState a c))
| reachable_step (e : Event) (s s' : AppState) :
    reachable s -> step e s = Some s' -> reachable s'.

(** The state after a list of events, from left to right. *)
Definition run {conversion : JS.CaseConversion} (es : list Event) (s : AppState) : AppState :=
  fold_left (fun st e => dispatch e st) es s.

(** ** The criteria, in the specification's words *)

Definition isUpperCaseLetter (c : ascii) : Prop :=
  (65 <= nat_of_ascii c <= 90)%nat.

(** Two characters that are equal, or the upper-case and the lower-case form
    of one letter. *)
Definition sameIgnoringCase (a b : ascii) : Prop :=
  a = b
  \/ (isUpperCaseLetter a /\ nat_of_ascii b = (nat_of_ascii a + 32)%nat)
  \/ (isUpperCaseLetter b /\ nat_of_ascii a = (nat_of_ascii b + 32)%nat).

Fixpoint equalIgnoringCase (s t : string) : Prop :=
  match s, t with
  | EmptyString, EmptyString => True
  | String a s', String b t' => sameIgnoringCase a b /\ equalIgnoringCase s' t'
  | _, _ => False
  end.

(** [term] occurs in [text], up to the case of ASCII letters: what
    [foundIgnoringCase] says on ASCII text. *)
Definition occursIgnoringCase (term text : string) : Prop :=
  exists before found rest,
    text = (before ++ found ++ rest)%string /\ equalIgnoringCase found term.

(** The term, in lower case, is a part of the text in lower case. *)
Definition foundIgnoringCase {conversion : JS.CaseConversion} (term text : string) : Prop :=
  exists before rest,
    JS.toLowerCase text = (before ++ JS.toLowerCase term ++ rest)%string.

Definition searchCriterion {conversion : JS.CaseConversion} (f : Filters) (p : Product) : Prop :=
  foundIgnoringCase (searchTerm f) (name p).

Definition categoryCriterion (f : Filters) (p : Product) : Prop :=
  selectedCategories f = [] \/ In (category p) (selectedCategories f).

Definition brandCriterion (f : Filters) (p : Product) : Prop :=
  selectedBrands f = [] \/ In (brand p) (selectedBrands f).

Definition priceCriterion (f : Filters) (p : Product) : Prop :=
  JS.le (fst (priceRange f)) (price p) = true
  /\ JS.le (price p) (snd (priceRange f)) = true.

Definition ratingCriterion (f : Filters) (p : Product) : Prop :=
  JS.ge (rating p) (minRating f) = true.

Definition withSortKey (key : string) (f : Filters) : Filters := setSortBy key f.

(** Products whose field [key] equals [k], in the order of [l]. *)
Definition withKey (key : Product -> JS.number) (k : JS.number) (l : list Product) : list Product :=
  List.filter (fun p => JS.strict_eq (key p) k) l.

Definition notNaN (a : JS.number) : Prop := a <> JS.NaN.

(** The state of the grid region that a rendered part belongs to. *)
Inductive GridState : Type := Loading | Failed | Loaded.

Definition partState (part : GridPart) : GridState :=
  match part with
  | LoadingSkeleton _ => Loading
  | ErrorPanel _ => Failed
  | ProductGrid _ | NoProductsFound => Loaded
  end.

(** The statement that the admin view is rendered only for a caller who is
    logged in with a recognized role, and that no transition takes a caller
    who is not logged in (before and after it) to the admin view: the view
    stays where it was. *)
Definition adminViewGuarded {conversion : JS.CaseConversion} : Prop :=
  (forall s : AppState,
     reachable s -> rendersAdminView s = true ->
     isLoggedIn (auth s) = true /\ recognizedRole (role (auth s)) = true)
  /\ (forall (e : Event) (s s' : AppState),
        reachable s -> step e s = Some s' ->
        isLoggedIn (auth s) = false -> isLoggedIn (auth s') = false ->
        view s' = admin -> view s' = view s).

(** The statement that a change of view closes all three overlays. *)
Definition viewChangeClosesAllOverlays {conversion : JS.CaseConversion} : Prop :=
  forall (e : Event) (s s' : AppState),
    reachable s -> step e s = Some s' -> view s' <> view s ->
    isCartOpen s' = false /\ isMobileMenuOpen s' = false /\ isLoginModalOpen s' = false.

(** The statement that two orders placed in one session never get the same
    identifier: whatever happens between them ([between]) and whatever the
    clock and the random source return. *)
Definition orderIdsAlwaysDistinct {conversion : JS.CaseConversion} : Prop :=
  forall (s : AppState) (now1 : N) (random1 : string) (between : list Event)
         (now2 : N) (random2 : string) (s1 s2 : AppState),
    reachable s ->
    step (PlaceOrder now1 random1) s = Some s1 ->
    step (PlaceOrder now2 random2) (run between s1) = Some s2 ->
    lastOrderId s2 <> lastOrderId s1.

(** A string without the character [-]. *)
Fixpoint noDash (s : string) : Prop :=
  match s with
  | EmptyString => True
  | String c s' => c <> "-"%char /\ noDash s'
  end.

(** Sample inputs for the examples. *)
Definition visitor : Auth := mkAuth false None None.

Definition administrator : Auth := mkAuth true (Some (UserRole_name role_admin)) (Some "amrah").

(** A caller logged in with a role that is none of the three. *)
Definition customer : Auth := mkAuth true (Some "customer") (Some "zainab").

(** A product for the examples. *)
Definition sample (n : string) (p r : Z) : Product :=
  mkProduct n n "" (JS.of_Z p) (JS.of_Z r) [] "flour" "amrah" (JS.of_Z 1).

(** ** Further notions used in the statements *)

(** What the default criteria let through: a price and a rating of at least 0
    (which NaN is not). *)
Definition nonNegative (p : Product) : bool :=
  JS.le (JS.of_Z 0) (price p) && JS.le (JS.of_Z 0) (rating p).

(** The values the rating buttons can leave in [minRating]. *)
Definition offeredRatings : list JS.number := map JS.of_Z (0 :: ratingButtons)%Z.

Definition isLowerCaseLetter (c : ascii) : Prop :=
  (97 <= nat_of_ascii c <= 122)%nat.

(** A string without lower-case letters. *)
Fixpoint noLowerCase (s : string) : Prop :=
  match s with
  | EmptyString => True
  | String c s' => ~ isLowerCaseLetter c /\ noLowerCase s'
  end.

(** The four bounded price buttons (all but "All Prices"). *)
Definition boundedPriceRanges : list (JS.number * JS.number) :=
  firstn 4 priceRangeButtons.

(** * Lemmas *)

(** ** Numbers *)

Module NumberFacts.

Import QArith_base.

Lemma Qlt_bool_iff (x y : Q) : JS.Qlt_bool x y = true <-> (x < y)%Q.
Proof.
  unfold JS.Qlt_bool. rewrite negb_true_iff.
  split.
  - intros H. apply Qnot_le_lt. intros Hle.
    apply Qle_bool_iff in Hle. congruence.
  - intros H. destruct (Qle_bool y x) eqn:E; [|reflexivity].
    apply Qle_bool_iff in E. exfalso. exact (Qlt_not_le _ _ H E).
Qed.

Lemma le_notNaN_l (a b : JS.number) : JS.le a b = true -> notNaN a.
Proof. destruct a, b; simpl; unfold notNaN; congruence. Qed.

Lemma le_notNaN_r (a b : JS.number) : JS.le a b = true -> notNaN b.
Proof. destruct a, b; simpl; unfold notNaN; congruence. Qed.

Lemma le_Fin (x y : Q) : JS.le (JS.Fin x) (JS.Fin y) = true <-> (x <= y)%Q.
Proof.
  simpl. rewrite negb_true_iff. split.
  - intros H. apply Qnot_lt_le. intros Hlt. apply Qlt_bool_iff in Hlt. congruence.
  - intros H. destruct (JS.Qlt_bool y x) eqn:E; [|reflexivity].
    apply Qlt_bool_iff in E. exfalso. exact (Qlt_not_le _ _ E H).
Qed.

Lemma lt_Fin (x y : Q) : JS.lt (JS.Fin x) (JS.Fin y) = true <-> (x < y)%Q.
Proof. apply Qlt_bool_iff. Qed.

Lemma le_refl (a : JS.number) : notNaN a -> JS.le a a = true.
Proof.
  destruct a; unfold notNaN; try reflexivity; try congruence.
  intros _. apply le_Fin. apply Qle_refl.
Qed.

Lemma le_trans (a b c : JS.number) :
  JS.le a b = true -> JS.le b c = true -> JS.le a c = true.
Proof.
  destruct a, b, c; try (simpl; congruence).
  rewrite !le_Fin. apply Qle_trans.
Qed.

Lemma le_total (a b : JS.number) :
  notNaN a -> notNaN b -> JS.le a b = true \/ JS.le b a = true.
Proof.
  unfold notNaN. destruct a, b; try congruence; try (simpl; auto; fail).
  intros _ _. rewrite !le_Fin.
  destruct (Qlt_le_dec q q0) as [H|H]; [left; apply Qlt_le_weak; exact H | right; exact H].
Qed.

(** The sign of a difference of two numbers that are not NaN. *)
Lemma sub_gt_zero (a b : JS.number) :
  notNaN a -> notNaN b ->
  JS.gt (match JS.sub a b with JS.NaN => JS.zero | v => v end) JS.zero = JS.lt b a.
Proof.
  unfold notNaN. destruct a, b; try congruence; try reflexivity.
  intros _ _. unfold JS.gt. simpl.
  apply eq_true_iff_eq. rewrite !Qlt_bool_iff.
  rewrite (Qlt_minus_iff q0 q). unfold Qminus. reflexivity.
Qed.

Lemma lt_false_le (a b : JS.number) :
  notNaN a -> notNaN b -> JS.lt b a = false -> JS.le a b = true.
Proof.
  unfold notNaN. destruct a, b; try congruence; simpl; try congruence.
  intros _ _ ->. reflexivity.
Qed.

Lemma lt_true_le (a b : JS.number) : JS.lt b a = true -> JS.le b a = true.
Proof.
  destruct a, b; simpl; try congruence.
  intros H. apply Qlt_bool_iff in H. rewrite negb_true_iff.
  destruct (JS.Qlt_bool q q0) eqn:E; [|reflexivity].
  apply Qlt_bool_iff in E. exfalso. exact (Qlt_irrefl _ (Qlt_trans _ _ _ H E)).
Qed.

Lemma strict_eq_not_lt (a b k : JS.number) :
  JS.strict_eq a k = true -> JS.strict_eq b k = true -> JS.lt a b = false.
Proof.
  destruct a, b, k; simpl; try congruence.
  intros Ha Hb. apply Qeq_bool_iff in Ha. apply Qeq_bool_iff in Hb.
  destruct (JS.Qlt_bool q q0) eqn:E; [|reflexivity].
  apply Qlt_bool_iff in E. rewrite Ha, Hb in E.
  exfalso. exact (Qlt_irrefl _ E).
Qed.

End NumberFacts.

(** ** Strings *)

Module StringFacts.

Ltac leb_cases :=
  repeat match goal with
         | |- context [(?x <=? ?y)%nat] => destruct (Nat.leb_spec x y)
         end.

Lemma nat_of_lowerChar (c : ascii) :
  nat_of_ascii (JS.lowerChar c) =
  if (65 <=? nat_of_ascii c)%nat && (nat_of_ascii c <=? 90)%nat
  then (nat_of_ascii c + 32)%nat else nat_of_ascii c.
Proof.
  unfold JS.lowerChar.
  destruct ((65 <=? nat_of_ascii c)%nat && (nat_of_ascii c <=? 90)%nat) eqn:E; [|reflexivity].
  apply andb_true_iff in E. destruct E as [_ E]. apply Nat.leb_le in E.
  apply nat_ascii_embedding. lia.
Qed.

Lemma nat_of_ascii_inj (a b : ascii) : nat_of_ascii a = nat_of_ascii b -> a = b.
Proof.
  intros H. rewrite <- (ascii_nat_embedding a), <- (ascii_nat_embedding b).
  now rewrite H.
Qed.

(** Lower-casing identifies exactly the characters that are the same up to
    case. *)
Lemma lowerChar_eq_iff (a b : ascii) :
  JS.lowerChar a = JS.lowerChar b <-> sameIgnoringCase a b.
Proof.
  unfold sameIgnoringCase, isUpperCaseLetter. split.
  - intros H. apply (f_equal nat_of_ascii) in H.
    rewrite !nat_of_lowerChar in H. revert H.
    leb_cases; cbn [andb]; intros Heq;
      first [ left; apply nat_of_ascii_inj; lia | right; left; lia | right; right; lia ].
  - intros Hs. apply nat_of_ascii_inj. rewrite !nat_of_lowerChar.
    leb_cases; cbn [andb];
      destruct Hs as [Hs | [[Hs1 Hs2] | [Hs1 Hs2]]]; subst; lia.
Qed.

Lemma toLowerCase_eq_iff (s t : string) :
  JS.toLowerCaseASCII s = JS.toLowerCaseASCII t <-> equalIgnoringCase s t.
Proof.
  unfold JS.toLowerCaseASCII.
  revert t. induction s as [|a s IH]; intros [|b t]; simpl;
    try (split; [discriminate | tauto]).
  - tauto.
  - rewrite <- IH, <- lowerChar_eq_iff. split.
    + intros H. injection H. auto.
    + intros [E1 E2]. rewrite E1, E2. reflexivity.
Qed.

Lemma mapString_app (f : ascii -> ascii) (s t : string) :
  JS.mapString f (s ++ t) = (JS.mapString f s ++ JS.mapString f t)%string.
Proof. induction s as [|c s IH]; simpl; [reflexivity | now rewrite IH]. Qed.

(** A split of the image of a string comes from a split of the string. *)
Lemma mapString_split (f : ascii -> ascii) (s x y : string) :
  JS.mapString f s = (x ++ y)%string ->
  exists s1 s2, s = (s1 ++ s2)%string /\ JS.mapString f s1 = x /\ JS.mapString f s2 = y.
Proof.
  revert s. induction x as [|c x IH]; intros s H.
  - exists EmptyString, s. auto.
  - destruct s as [|d s]; [discriminate|]. simpl in H. injection H as Hc Hs.
    destruct (IH _ Hs) as (s1 & s2 & -> & H1 & H2).
    exists (String d s1), s2. simpl. rewrite H1, Hc. auto.
Qed.

Lemma startsWith_iff (s t : string) :
  JS.startsWith s t = true <-> exists rest, s = (t ++ rest)%string.
Proof.
  revert s. induction t as [|d t IH]; intros s.
  - destruct s; simpl; split; eauto.
  - destruct s as [|c s]; simpl.
    + split; [discriminate | intros [r H]; discriminate].
    + rewrite andb_true_iff, IH. split.
      * intros [Hc [r ->]]. apply Ascii.eqb_eq in Hc. subst. eauto.
      * intros [r H]. injection H as -> ->. split; [apply Ascii.eqb_refl | eauto].
Qed.

Lemma includes_iff (s t : string) :
  JS.includes s t = true <-> exists before rest, s = (before ++ t ++ rest)%string.
Proof.
  induction s as [|c s IH].
  - cbn [JS.includes]. rewrite orb_false_r, startsWith_iff. split.
    + intros [r H]. exists EmptyString, r. exact H.
    + intros ([|b bs] & r & H); [eauto | discriminate].
  - cbn [JS.includes]. rewrite orb_true_iff, startsWith_iff, IH. split.
    + intros [[r H] | (b & r & H)].
      * exists EmptyString, r. exact H.
      * exists (String c b), r. simpl. now rewrite H.
    + intros ([|b bs] & r & H).
      * left. eauto.
      * right. injection H as -> H. eauto.
Qed.

(** What the search test of the filter decides. *)
Lemma search_test_iff (text term : string) :
  JS.includes (JS.toLowerCaseASCII text) (JS.toLowerCaseASCII term) = true
  <-> occursIgnoringCase term text.
Proof.
  rewrite includes_iff. unfold occursIgnoringCase, JS.toLowerCaseASCII. split.
  - intros (b & r & H).
    apply mapString_split in H. destruct H as (s1 & s2 & -> & H1 & H2).
    apply mapString_split in H2. destruct H2 as (s3 & s4 & -> & H3 & H4).
    exists s1, s3, s4. split; [reflexivity|].
    apply toLowerCase_eq_iff. exact H3.
  - intros (b & m & r & -> & H). apply toLowerCase_eq_iff in H.
    exists (JS.mapString JS.lowerChar b), (JS.mapString JS.lowerChar r).
    rewrite !mapString_app. unfold JS.toLowerCaseASCII in H. now rewrite H.
Qed.

Lemma Array_includes_iff (l : list string) (x : string) :
  JS.Array_includes l x = true <-> In x l.
Proof.
  unfold JS.Array_includes. rewrite existsb_exists. split.
  - intros (y & Hy & E). apply String.eqb_eq in E. now subst.
  - intros H. exists x. split; [exact H | apply String.eqb_refl].
Qed.

End StringFacts.

(** ** The sort *)

Module SortFacts.

Section Sort.

Context {A : Type} (comparefn : A -> A -> JS.number).

Lemma sortInsert_perm (x : A) (l : list A) :
    Permutation (JS.sortInsert comparefn x l) (x :: l).
  Proof.
    induction l as [|y l IH]; cbn [JS.sortInsert].
    - apply Permutation_refl.
    - destruct (JS.goesAfter comparefn x y).
      + eapply perm_trans; [apply perm_skip, IH | apply perm_swap].
      + apply Permutation_refl.
  Qed.

Lemma Array_sort_perm (l : list A) : Permutation (JS.Array_sort comparefn l) l.
  Proof.
    induction l as [|x l IH]; simpl.
    - apply Permutation_refl.
    - eapply perm_trans; [apply sortInsert_perm | apply perm_skip, IH].
  Qed.

Lemma Array_sort_In (l : list A) (x : A) : In x (JS.Array_sort comparefn l) <-> In x l.
  Proof.
    split; apply Permutation_in; [| apply Permutation_sym]; apply Array_sort_perm.
  Qed.

(** A comparator that never asks for a swap leaves the array as it is. *)
Lemma Array_sort_no_swap (l : list A) :
    (forall x y, JS.goesAfter comparefn x y = false) -> JS.Array_sort comparefn l = l.
  Proof.
    intros H. induction l as [|x l IH]; cbn [JS.Array_sort]; [reflexivity|].
    rewrite IH. destruct l as [|y l]; cbn [JS.sortInsert]; [reflexivity|].
    now rewrite H.
  Qed.

Section Sorted.

Variables (R : A -> A -> Prop) (P : A -> Prop).
Hypothesis R_trans : forall x y z, R x y -> R y z -> R x z.
Hypothesis stays_before : forall x y, P x -> P y -> JS.goesAfter comparefn x y = false -> R x y.
Hypothesis goes_after : forall x y, P x -> P y -> JS.goesAfter comparefn x y = true -> R y x.

Lemma sortInsert_sorted (x : A) (l : list A) :
      P x -> Forall P l -> StronglySorted R l ->
      StronglySorted R (JS.sortInsert comparefn x l).
    Proof.
      intros Px. induction l as [|y l IH]; intros HP HS; cbn [JS.sortInsert].
      - constructor; constructor.
      - inversion HP as [|? ? Py HPl]; subst.
        inversion HS as [|? ? HSl Hy]; subst.
        destruct (JS.goesAfter comparefn x y) eqn:E.
        + constructor; [apply IH; assumption|].
          apply List.Forall_forall. intros z Hz.
          apply (Permutation_in _ (sortInsert_perm x l)) in Hz.
          destruct Hz as [<- | Hz].
          * apply goes_after; assumption.
          * rewrite List.Forall_forall in Hy. apply Hy, Hz.
        + constructor; [exact HS|].
          assert (Rxy : R x y) by (apply stays_before; assumption).
          constructor; [exact Rxy|].
          eapply List.Forall_impl; [|exact Hy]. intros z Hz. exact (R_trans _ _ _ Rxy Hz).
    Qed.

Lemma Array_sort_sorted (l : list A) :
      Forall P l -> StronglySorted R (JS.Array_sort comparefn l).
    Proof.
      induction l as [|x l IH]; intros HP; simpl.
      - constructor.
      - inversion HP as [|? ? Px HPl]; subst. apply sortInsert_sorted.
        + exact Px.
        + apply List.Forall_forall. intros z Hz.
          apply (proj1 (Array_sort_In _ _)) in Hz.
          exact (proj1 (List.Forall_forall P l) HPl z Hz).
        + apply IH, HPl.
    Qed.

End Sorted.

Section Stable.

(** A class of elements that the comparator never reorders among
        themselves keeps its order. *)
Variable E : A -> bool.
Hypothesis E_no_swap : forall x y, E x = true -> E y = true -> JS.goesAfter comparefn x y = false.

Lemma sortInsert_stable (x : A) (l : list A) :
      List.filter E (JS.sortInsert comparefn x l) = List.filter E (x :: l).
    Proof.
      induction l as [|y l IH]; [reflexivity|].
      cbn [JS.sortInsert]. destruct (JS.goesAfter comparefn x y) eqn:G; [|reflexivity].
      cbn [List.filter] in *. rewrite IH.
      destruct (E x) eqn:Ex, (E y) eqn:Ey; try reflexivity.
      rewrite (E_no_swap x y Ex Ey) in G. discriminate.
    Qed.

Lemma Array_sort_stable (l : list A) :
      List.filter E (JS.Array_sort comparefn l) = List.filter E l.
    Proof.
      induction l as [|x l IH]; [reflexivity|].
      cbn [JS.Array_sort]. rewrite sortInsert_stable. cbn [List.filter].
      now rewrite IH.
    Qed.

End Stable.

End Sort.

Import NumberFacts.

Section ByKey.

Context {A : Type} (key : A -> JS.number).

Lemma ascending_sorted (l : list A) :
    Forall (fun x => notNaN (key x)) l ->
    StronglySorted (fun x y => JS.le (key x) (key y) = true)
      (JS.Array_sort (fun a b => JS.sub (key a) (key b)) l).
  Proof.
    apply Array_sort_sorted.
    - intros x y z. apply le_trans.
    - intros x y Px Py. unfold JS.goesAfter, JS.sortCompare. rewrite sub_gt_zero by assumption.
      apply lt_false_le; assumption.
    - intros x y Px Py. unfold JS.goesAfter, JS.sortCompare. rewrite sub_gt_zero by assumption.
      apply lt_true_le.
  Qed.

Lemma descending_sorted (l : list A) :
    Forall (fun x => notNaN (key x)) l ->
    StronglySorted (fun x y => JS.ge (key x) (key y) = true)
      (JS.Array_sort (fun a b => JS.sub (key b) (key a)) l).
  Proof.
    unfold JS.ge. apply Array_sort_sorted.
    - intros x y z H1 H2. exact (le_trans _ _ _ H2 H1).
    - intros x y Px Py. unfold JS.goesAfter, JS.sortCompare. rewrite sub_gt_zero by assumption.
      apply lt_false_le; assumption.
    - intros x y Px Py. unfold JS.goesAfter, JS.sortCompare. rewrite sub_gt_zero by assumption.
      apply lt_true_le.
  Qed.

Lemma strict_eq_notNaN (a k : JS.number) : JS.strict_eq a k = true -> notNaN a.
  Proof. destruct a, k; simpl; unfold notNaN; congruence. Qed.

Lemma ascending_stable (k : JS.number) (l : list A) :
    List.filter (fun x => JS.strict_eq (key x) k)
      (JS.Array_sort (fun a b => JS.sub (key a) (key b)) l)
    = List.filter (fun x => JS.strict_eq (key x) k) l.
  Proof.
    apply Array_sort_stable. intros x y Hx Hy. unfold JS.goesAfter, JS.sortCompare.
    rewrite sub_gt_zero by (eapply strict_eq_notNaN; eassumption).
    eapply strict_eq_not_lt; eassumption.
  Qed.

Lemma descending_stable (k : JS.number) (l : list A) :
    List.filter (fun x => JS.strict_eq (key x) k)
      (JS.Array_sort (fun a b => JS.sub (key b) (key a)) l)
    = List.filter (fun x => JS.strict_eq (key x) k) l.
  Proof.
    apply Array_sort_stable. intros x y Hx Hy. unfold JS.goesAfter, JS.sortCompare.
    rewrite sub_gt_zero by (eapply strict_eq_notNaN; eassumption).
    eapply strict_eq_not_lt; eassumption.
  Qed.

End ByKey.

End SortFacts.

(** ** The derivation *)

Import NumberFacts StringFacts SortFacts.

Lemma length_zero_iff {A : Type} (l : list A) : (length l =? 0)%nat = true <-> l = [].
Proof. destruct l; simpl; split; congruence. Qed.

Lemma memberTest_iff (selected : list string) (x : string) :
  (length selected =? 0)%nat || JS.Array_includes selected x = true
  <-> selected = [] \/ In x selected.
Proof. now rewrite orb_true_iff, length_zero_iff, Array_includes_iff. Qed.

(** The filter callback accepts exactly the products that meet the five
    criteria. *)
Lemma matchesFilters_iff {conversion : JS.CaseConversion} (f : Filters) (p : Product) :
  matchesFilters f p = true <->
  searchCriterion f p /\ categoryCriterion f p /\ brandCriterion f p
  /\ priceCriterion f p /\ ratingCriterion f p.
Proof.
  unfold matchesFilters, searchCriterion, categoryCriterion, brandCriterion,
    priceCriterion, ratingCriterion.
  unfold foundIgnoringCase.
  rewrite !andb_true_iff, includes_iff, !memberTest_iff.
  unfold JS.ge. tauto.
Qed.

(** With the conversion of the ASCII letters, a term is found exactly when
    some part of the text equals it letter by letter up to case. *)
Lemma foundIgnoringCase_ASCII (term text : string) :
  @foundIgnoringCase JS.asciiCase term text <-> occursIgnoringCase term text.
Proof.
  unfold foundIgnoringCase. cbn [JS.toLowerCase JS.asciiCase].
  rewrite <- includes_iff. apply search_test_iff.
Qed.

Lemma matchesFilters_notNaN {conversion : JS.CaseConversion} (f : Filters) (p : Product) :
  matchesFilters f p = true -> notNaN (price p) /\ notNaN (rating p).
Proof.
  intros H. apply matchesFilters_iff in H.
  destruct H as (_ & _ & _ & [_ Hp] & Hr). split.
  - exact (le_notNaN_l _ _ Hp).
  - exact (le_notNaN_r _ _ Hr).
Qed.

Lemma filtered_notNaN {conversion : JS.CaseConversion} (key : Product -> JS.number) (f : Filters) (products : list Product) :
  (forall p, matchesFilters f p = true -> notNaN (key p)) ->
  Forall (fun p => notNaN (key p)) (JS.Array_filter (matchesFilters f) products).
Proof.
  intros H. apply List.Forall_forall. intros p Hp.
  apply filter_In in Hp. apply H, Hp.
Qed.

(** C1. The derived list holds exactly the products of the full list that
    meet all five criteria (search term found in the name when both are
    taken in lower case, category selected or no category selected, brand
    selected or no brand selected, price inside the inclusive interval,
    rating at least the minimum); every derived product is a product of the
    full list, the derived list is the filtered list up to order, and the
    empty search term is found in every name. This holds whatever the
    lower-case conversion of the language does to a text; with the
    conversion of the ASCII letters, "found" is: some part of the name equals
    the term letter by letter up to case. *)
Theorem C1_derived_subset_exact {conversion : JS.CaseConversion} (products : list Product) (f : Filters) :
  (forall p,
     In p (filteredAndSortedProducts products f) <->
     In p products
     /\ searchCriterion f p /\ categoryCriterion f p /\ brandCriterion f p
     /\ priceCriterion f p /\ ratingCriterion f p)
  /\ incl (filteredAndSortedProducts products f) products
  /\ Permutation (filteredAndSortedProducts products f)
       (List.filter (matchesFilters f) products)
  /\ (forall text, foundIgnoringCase "" text)
  /\ (forall term text,
        @foundIgnoringCase JS.asciiCase term text <-> occursIgnoringCase term text).
Proof.
  assert (Hiff : forall p,
     In p (filteredAndSortedProducts products f) <->
     In p products /\ matchesFilters f p = true).
  { intros p. unfold filteredAndSortedProducts, JS.Array_filter.
    now rewrite Array_sort_In, filter_In. }
  split; [|split; [|split; [|split]]].
  - intros p. rewrite Hiff, matchesFilters_iff. reflexivity.
  - intros p Hp. apply Hiff in Hp. tauto.
  - apply Array_sort_perm.
  - intros text. exists EmptyString, (JS.toLowerCase text).
    now rewrite JS.toLowerCase_empty.
  - apply foundIgnoringCase_ASCII.
Qed.

(** A name with letters outside ASCII, under a conversion that maps the
    capital E with acute accent (bytes 195 137) to the small one (bytes 195
    169) besides the ASCII letters: the product is found by the term in
    lower case, as the language finds it. *)
Example search_beyond_ASCII :
  let cafe_upper := String "C" (String "A" (String "F"
                      (String (ascii_of_nat 195) (String (ascii_of_nat 137) "")))) in
  let cafe_lower := String "c" (String "a" (String "f"
                      (String (ascii_of_nat 195) (String (ascii_of_nat 169) "")))) in
  forall unicode : JS.CaseConversion,
    @JS.toLowerCase unicode cafe_upper = cafe_lower ->
    @JS.toLowerCase unicode cafe_lower = cafe_lower ->
    @filteredAndSortedProducts unicode
      [mkProduct "1" cafe_upper "" (JS.of_Z 3) (JS.of_Z 4) [] "drinks" "amrah" (JS.of_Z 1)]
      (setSearchTerm cafe_lower defaultFilters)
    = [mkProduct "1" cafe_upper "" (JS.of_Z 3) (JS.of_Z 4) [] "drinks" "amrah" (JS.of_Z 1)].
Proof.
  intros cafe_upper cafe_lower unicode Hu Hl.
  unfold filteredAndSortedProducts, JS.Array_filter, matchesFilters.
  cbn [searchTerm setSearchTerm defaultFilters name List.filter selectedCategories
       selectedBrands priceRange minRating sortBy fst snd length Nat.eqb orb category brand
       price rating].
  fold cafe_upper cafe_lower. rewrite Hu, Hl.
  reflexivity.
Qed.

Lemma filtered_price_notNaN {conversion : JS.CaseConversion} (f : Filters) (products : list Product) :
  Forall (fun p => notNaN (price p)) (JS.Array_filter (matchesFilters f) products).
Proof. apply filtered_notNaN. intros p H. apply (matchesFilters_notNaN f p H). Qed.

Lemma filtered_rating_notNaN {conversion : JS.CaseConversion} (f : Filters) (products : list Product) :
  Forall (fun p => notNaN (rating p)) (JS.Array_filter (matchesFilters f) products).
Proof. apply filtered_notNaN. intros p H. apply (matchesFilters_notNaN f p H). Qed.

(** Any sort key other than the three named ones leaves the filtered order. *)
Lemma other_key_keeps_order {conversion : JS.CaseConversion} (products : list Product) (f : Filters) :
  String.eqb (sortBy f) "price_asc" = false ->
  String.eqb (sortBy f) "price_desc" = false ->
  String.eqb (sortBy f) "rating_desc" = false ->
  filteredAndSortedProducts products f = List.filter (matchesFilters f) products.
Proof.
  intros H1 H2 H3. unfold filteredAndSortedProducts.
  apply Array_sort_no_swap. intros x y.
  unfold JS.goesAfter, JS.sortCompare, compareProducts. rewrite H1, H2, H3. reflexivity.
Qed.

(** C2. On the filtered list, the key [price_asc] gives prices that never
    decrease, [price_desc] prices that never increase, [rating_desc] ratings
    that never increase; each of these sorts keeps products of equal key in
    their filtered order (stability); the key [relevance] returns the
    filtered list as it is. *)
Theorem C2_sort_orders {conversion : JS.CaseConversion} (products : list Product) (f : Filters) :
  let filtered := List.filter (matchesFilters f) products in
  let derived := fun key => filteredAndSortedProducts products (withSortKey key f) in
  StronglySorted (fun a b => JS.le (price a) (price b) = true) (derived "price_asc")
  /\ StronglySorted (fun a b => JS.ge (price a) (price b) = true) (derived "price_desc")
  /\ StronglySorted (fun a b => JS.ge (rating a) (rating b) = true) (derived "rating_desc")
  /\ (forall k, withKey price k (derived "price_asc") = withKey price k filtered)
  /\ (forall k, withKey price k (derived "price_desc") = withKey price k filtered)
  /\ (forall k, withKey rating k (derived "rating_desc") = withKey rating k filtered)
  /\ derived "relevance" = filtered.
Proof.
  cbv zeta. unfold filteredAndSortedProducts, withSortKey, withKey.
  change (matchesFilters (setSortBy _ f)) with (matchesFilters f).
  repeat apply conj.
  - apply (ascending_sorted price), filtered_price_notNaN.
  - apply (descending_sorted price), filtered_price_notNaN.
  - apply (descending_sorted rating), filtered_rating_notNaN.
  - intros k. apply (ascending_stable price).
  - intros k. apply (descending_stable price).
  - intros k. apply (descending_stable rating).
  - apply Array_sort_no_swap. intros x y. reflexivity.
Qed.

(** The two scenarios of the specification. *)
Example scenario_price_asc :
  map price
    (filteredAndSortedProducts
       [sample "a" 10 3; sample "b" 50 5; sample "c" 5 4]
       (withSortKey "price_asc" defaultFilters))
  = [JS.of_Z 5; JS.of_Z 10; JS.of_Z 50].
Proof. reflexivity. Qed.

Example scenario_min_rating :
  map name
    (filteredAndSortedProducts
       [sample "a" 10 3; sample "b" 50 5; sample "c" 5 4]
       (setMinRating (JS.of_Z 4) defaultFilters))
  = ["b"; "c"].
Proof. reflexivity. Qed.

(** ** The facet lists *)

Lemma Set_add_In (members : list string) (x y : string) :
  In y (JS.Set_add members x) <-> In y members \/ y = x.
Proof.
  unfold JS.Set_add. destruct (JS.Array_includes members x) eqn:E.
  - apply Array_includes_iff in E. split; [tauto|]. intros [H | ->]; assumption.
  - rewrite in_app_iff. simpl. intuition congruence.
Qed.

Lemma Set_add_NoDup (members : list string) (x : string) :
  List.NoDup members -> List.NoDup (JS.Set_add members x).
Proof.
  intros H. unfold JS.Set_add. destruct (JS.Array_includes members x) eqn:E; [exact H|].
  assert (Hx : ~ In x members).
  { intros Hin. apply Array_includes_iff in Hin. congruence. }
  clear E. induction H as [|y l Hy Hl IH]; simpl.
  - apply List.NoDup_cons; [simpl; tauto | apply List.NoDup_nil].
  - apply List.NoDup_cons.
    + rewrite in_app_iff. simpl. intros [H1 | [H1 | []]]; [tauto|].
      subst. apply Hx. now left.
    + apply IH. intros H1. apply Hx. now right.
Qed.

Lemma fold_Set_add (l acc : list string) :
  List.NoDup acc ->
  List.NoDup (fold_left JS.Set_add l acc)
  /\ (forall x, In x (fold_left JS.Set_add l acc) <-> In x acc \/ In x l).
Proof.
  revert acc. induction l as [|y l IH]; intros acc H; simpl.
  - split; [exact H | intros x; tauto].
  - destruct (IH _ (Set_add_NoDup acc y H)) as [H1 H2]. split; [exact H1|].
    intros x. rewrite H2, Set_add_In. intuition congruence.
Qed.

Lemma new_Set_NoDup (l : list string) : List.NoDup (JS.new_Set l).
Proof. apply fold_Set_add. constructor. Qed.

Lemma new_Set_In (l : list string) (x : string) : In x (JS.new_Set l) <-> In x l.
Proof.
  unfold JS.new_Set. rewrite (proj2 (fold_Set_add l [] (List.NoDup_nil _))).
  simpl. tauto.
Qed.

Lemma once_in_new_Set (l : list string) (x : string) :
  In x l -> count_occ string_dec (JS.new_Set l) x = 1%nat.
Proof.
  intros H. apply NoDup_count_occ'; [apply new_Set_NoDup | now apply new_Set_In].
Qed.

(** C9. Each facet list has no repeated entry; its entries are exactly the
    values (category, respectively brand) that occur among the products; so
    the value of every product occurs in it exactly once, however many
    products share it. *)
Theorem C9_facets_distinct (products : list Product) :
  (List.NoDup (categories products)
   /\ (forall c, In c (categories products) <-> exists p, In p products /\ category p = c)
   /\ Forall (fun p => count_occ string_dec (categories products) (category p) = 1%nat) products)
  /\
  (List.NoDup (brands products)
   /\ (forall b, In b (brands products) <-> exists p, In p products /\ brand p = b)
   /\ Forall (fun p => count_occ string_dec (brands products) (brand p) = 1%nat) products).
Proof.
  unfold categories, brands, JS.Array_from. split; (split; [|split]).
  - apply new_Set_NoDup.
  - intros c. rewrite new_Set_In, in_map_iff. firstorder.
  - apply List.Forall_forall. intros p Hp. apply once_in_new_Set, in_map, Hp.
  - apply new_Set_NoDup.
  - intros c. rewrite new_Set_In, in_map_iff. firstorder.
  - apply List.Forall_forall. intros p Hp. apply once_in_new_Set, in_map, Hp.
Qed.

Example facets_of_duplicates :
  categories
    [ mkProduct "1" "a" "" JS.zero JS.zero [] "flour" "x" JS.zero;
      mkProduct "2" "b" "" JS.zero JS.zero [] "rice" "y" JS.zero;
      mkProduct "3" "c" "" JS.zero JS.zero [] "flour" "x" JS.zero ]
  = ["flour"; "rice"].
Proof. reflexivity. Qed.

(** ** The derivation on the heap *)

(** One run: the result is a new array holding the derived list, and every
    array that existed before the run still holds what it held. *)
Lemma filteredAndSortedProducts_ref_run {conversion : JS.CaseConversion} (h : heap) (products : ref)
    (ps : list Product) (f : Filters) :
  h !! products = Some ps ->
  exists r h',
    filteredAndSortedProducts_ref products f h = Some (r, h')
    /\ h !! r = None
    /\ h' !! r = Some (filteredAndSortedProducts ps f)
    /\ (forall a, a <> r -> h' !! a = h !! a).
Proof.
  intros Hps.
  set (r := fresh (dom h)).
  assert (Hr : h !! r = None).
  { apply not_elem_of_dom. apply is_fresh. }
  exists r, (<[r := filteredAndSortedProducts ps f]> (<[r := JS.Array_filter (matchesFilters f) ps]> h)).
  split; [|split; [exact Hr | split]].
  - unfold filteredAndSortedProducts_ref, Array_filter_ref, Array_sort_ref,
      bind, read, alloc, write, ret.
    rewrite Hps. subst r. rewrite !lookup_insert_eq. reflexivity.
  - apply lookup_insert_eq.
  - intros a Ha. rewrite !lookup_insert_ne by congruence. reflexivity.
Qed.

(** C3. The derivation is a function of its inputs and does not touch the
    product array: run twice in a row on the same product array and the same
    criteria, it succeeds both times, both results hold the same list (the
    one the pure derivation gives), the results are arrays other than the
    product array, and after each run the product array holds what it held
    before, as does every other array that existed. *)
Theorem C3_derivation_pure {conversion : JS.CaseConversion} (h : heap) (products : ref) (ps : list Product) (f : Filters) :
  h !! products = Some ps ->
  exists r1 h1 r2 h2,
    filteredAndSortedProducts_ref products f h = Some (r1, h1)
    /\ filteredAndSortedProducts_ref products f h1 = Some (r2, h2)
    /\ h1 !! r1 = Some (filteredAndSortedProducts ps f)
    /\ h2 !! r2 = Some (filteredAndSortedProducts ps f)
    /\ r1 <> products /\ r2 <> products
    /\ h1 !! products = Some ps /\ h2 !! products = Some ps
    /\ (forall a, is_Some (h !! a) -> h1 !! a = h !! a /\ h2 !! a = h !! a).
Proof.
  intros Hps.
  destruct (filteredAndSortedProducts_ref_run h products ps f Hps)
    as (r1 & h1 & Hrun1 & Hnew1 & Hres1 & Hkeep1).
  assert (Hne1 : r1 <> products) by (intros ->; congruence).
  assert (Hps1 : h1 !! products = Some ps).
  { rewrite Hkeep1; [assumption | congruence]. }
  destruct (filteredAndSortedProducts_ref_run h1 products ps f Hps1)
    as (r2 & h2 & Hrun2 & Hnew2 & Hres2 & Hkeep2).
  assert (Hne2 : r2 <> products) by (intros ->; congruence).
  exists r1, h1, r2, h2.
  split; [exact Hrun1|]. split; [exact Hrun2|].
  split; [exact Hres1|]. split; [exact Hres2|].
  split; [exact Hne1|]. split; [exact Hne2|].
  split; [exact Hps1|].
  split; [rewrite Hkeep2; [assumption | congruence]|].
  intros a [l Ha].
  assert (Ha1 : a <> r1) by (intros ->; congruence).
  assert (E1 : h1 !! a = h !! a) by (apply Hkeep1; assumption).
  split; [exact E1|].
  rewrite <- E1. apply Hkeep2. intros ->. congruence.
Qed.

Lemma C3_derivation_pure_witness :
  let h : heap := {[ 7%nat := [sample "a" 10 3; sample "b" 50 5; sample "c" 5 4] ]} in
  let ps := [sample "a" 10 3; sample "b" 50 5; sample "c" 5 4] in
  let f := withSortKey "price_asc" defaultFilters in
  h !! 7%nat = Some ps
  /\ exists r1 h1 r2 h2,
    filteredAndSortedProducts_ref 7%nat f h = Some (r1, h1)
    /\ filteredAndSortedProducts_ref 7%nat f h1 = Some (r2, h2)
    /\ h1 !! r1 = Some (filteredAndSortedProducts ps f)
    /\ h2 !! r2 = Some (filteredAndSortedProducts ps f)
    /\ r1 <> 7%nat /\ r2 <> 7%nat
    /\ h1 !! 7%nat = Some ps /\ h2 !! 7%nat = Some ps
    /\ (forall a, is_Some (h !! a) -> h1 !! a = h !! a /\ h2 !! a = h !! a).
Proof.
  cbv zeta. split.
  - reflexivity.
  - apply C3_derivation_pure. reflexivity.
Defined.

Example derivation_on_heap :
  match filteredAndSortedProducts_ref 7%nat (withSortKey "price_asc" defaultFilters)
          {[ 7%nat := [sample "a" 10 3; sample "b" 50 5; sample "c" 5 4] ]} with
  | Some (r, h') =>
      (r, map name <$> h' !! r, map name <$> h' !! 7%nat)
  | None => (0%nat, None, None)
  end = (8%nat, Some ["c"; "a"; "b"], Some ["a"; "b"; "c"]).
Proof. vm_compute. reflexivity. Qed.

(** ** Effects and transitions *)

Lemma View_eqb_eq (a b : View) : View_eqb a b = true <-> a = b.
Proof. destruct a, b; simpl; split; intros H; try reflexivity; discriminate. Qed.

Ltac effect_cases :=
  unfold runEffects, notificationsEffect, productsEffect, viewEffect;
  repeat match goal with
         | |- context [if ?b then _ else _] => destruct b
         end;
  try reflexivity.

Lemma runEffects_view (old new : AppState) : view (runEffects old new) = view new.
Proof. effect_cases. Qed.

Lemma runEffects_auth (old new : AppState) : auth (runEffects old new) = auth new.
Proof. effect_cases. Qed.

Lemma runEffects_products (old new : AppState) : products (runEffects old new) = products new.
Proof. effect_cases. Qed.

Lemma runEffects_cart (old new : AppState) : cart (runEffects old new) = cart new.
Proof. effect_cases. Qed.

Lemma runEffects_filters (old new : AppState) : filters (runEffects old new) = filters new.
Proof. effect_cases. Qed.

Lemma runEffects_lastOrderId (old new : AppState) :
  lastOrderId (runEffects old new) = lastOrderId new.
Proof. effect_cases. Qed.

Lemma runEffects_isLoginModalOpen (old new : AppState) :
  isLoginModalOpen (runEffects old new) = isLoginModalOpen new.
Proof. effect_cases. Qed.

Lemma runEffects_console (old new : AppState) : console (runEffects old new) = console new.
Proof. effect_cases. Qed.

(** The effect on the view closes the cart panel and the mobile menu. *)
Lemma runEffects_view_changed (old new : AppState) :
  viewDepsChanged old new = true ->
  isCartOpen (runEffects old new) = false /\ isMobileMenuOpen (runEffects old new) = false.
Proof. intros H. unfold runEffects. rewrite H. split; reflexivity. Qed.

Lemma runEffects_nothing_changed (old new : AppState) :
  authDepsChanged old new = false -> productsDepsChanged old new = false ->
  viewDepsChanged old new = false -> runEffects old new = new.
Proof. intros H1 H2 H3. unfold runEffects. now rewrite H1, H2, H3. Qed.

(** Without a change of [products.length] no product request starts and the
    loading flag and the error stay. *)
Lemma runEffects_products_unchanged (old new : AppState) :
  productsDepsChanged old new = false ->
  isLoading (runEffects old new) = isLoading new
  /\ error (runEffects old new) = error new
  /\ productRequests (runEffects old new) = productRequests new.
Proof. intros H. unfold runEffects. rewrite H. effect_cases; auto. Qed.

(** Whatever the effects do, afterwards either the loading flag and the
    error are those the handler left, or a request has just started, with
    the flag set and the error cleared. *)
Lemma runEffects_loading (old new : AppState) :
  (isLoading (runEffects old new) = isLoading new
   /\ error (runEffects old new) = error new)
  \/ (isLoading (runEffects old new) = true /\ error (runEffects old new) = None).
Proof. effect_cases; auto. Qed.

(** Without a change of the login state no notification request starts and
    the notification list stays. *)
Lemma runEffects_auth_unchanged (old new : AppState) :
  authDepsChanged old new = false ->
  adminNotifications (runEffects old new) = adminNotifications new
  /\ notificationRequests (runEffects old new) = notificationRequests new.
Proof. intros H. unfold runEffects. rewrite H. effect_cases; auto. Qed.

(** A change of the login state to "logged out" or "no role" clears the
    list and starts no request. *)
Lemma runEffects_logged_out (old new : AppState) :
  authDepsChanged old new = true ->
  isLoggedIn (auth new) && JS.truthy (role (auth new)) = false ->
  adminNotifications (runEffects old new) = []
  /\ notificationRequests (runEffects old new) = notificationRequests new.
Proof.
  intros H1 H2. unfold runEffects, notificationsEffect. rewrite H1, H2.
  unfold productsEffect, viewEffect.
  repeat match goal with
         | |- context [if ?b then _ else _] => destruct b
         end; auto.
Qed.

(** A change of the login state to "logged in with a role" starts one
    request and leaves the list. *)
Lemma runEffects_logged_in (old new : AppState) :
  authDepsChanged old new = true ->
  isLoggedIn (auth new) && JS.truthy (role (auth new)) = true ->
  adminNotifications (runEffects old new) = adminNotifications new
  /\ notificationRequests (runEffects old new) = S (notificationRequests new).
Proof.
  intros H1 H2. unfold runEffects, notificationsEffect. rewrite H1, H2.
  unfold productsEffect, viewEffect.
  repeat match goal with
         | |- context [if ?b then _ else _] => destruct b
         end; auto.
Qed.

Lemma step_inv {conversion : JS.CaseConversion} (e : Event) (s s' : AppState) :
  step e s = Some s' -> enabled e s = true /\ s' = runEffects s (handle e s).
Proof. unfold step. destruct (enabled e s); intros H; inversion H; auto. Qed.

Lemma viewDepsChanged_iff (old new : AppState) :
  viewDepsChanged old new = true <-> view new <> view old.
Proof.
  unfold viewDepsChanged. rewrite negb_true_iff.
  destruct (View_eqb (view old) (view new)) eqn:E.
  - apply View_eqb_eq in E. split; [discriminate | congruence].
  - split; [|reflexivity]. intros _ H.
    assert (View_eqb (view old) (view new) = true) by (apply View_eqb_eq; congruence).
    congruence.
Qed.

(** ** The view controller *)

Lemma rendersAdminView_iff {conversion : JS.CaseConversion} (s : AppState) :
  rendersAdminView s = true <->
  view s = admin /\ isLoggedIn (auth s) = true /\ JS.truthy (role (auth s)) = true.
Proof.
  unfold rendersAdminView, render.
  destruct (View_eqb (view s) admin) eqn:V.
  - apply View_eqb_eq in V.
    destruct (isLoggedIn (auth s)), (JS.truthy (role (auth s))); cbn; intuition congruence.
  - cbn. split; [discriminate|]. intros (W & _).
    apply View_eqb_eq in W. congruence.
Qed.

(** The admin view is rendered exactly when the view is [admin] and the gate
    (logged in, role set) holds. *)
Lemma rendersAdminView_gate {conversion : JS.CaseConversion} (s : AppState) :
  rendersAdminView s
  = View_eqb (view s) admin && isLoggedIn (auth s) && JS.truthy (role (auth s)).
Proof.
  unfold rendersAdminView, render.
  now destruct (View_eqb (view s) admin && isLoggedIn (auth s) && JS.truthy (role (auth s))).
Qed.

Lemma dispatch_disabled {conversion : JS.CaseConversion} (e : Event) (s : AppState) :
  enabled e s = false -> step e s = None /\ dispatch e s = s.
Proof. intros H. unfold dispatch, step. rewrite H. auto. Qed.

Lemma reachable_dispatch {conversion : JS.CaseConversion} (e : Event) (s : AppState) :
  reachable s -> reachable (dispatch e s).
Proof.
  intros H. unfold dispatch. destruct (step e s) eqn:E; [|exact H].
  exact (reachable_step e s _ H E).
Qed.

Lemma reachable_run {conversion : JS.CaseConversion} (es : list Event) (s : AppState) :
  reachable s -> reachable (run es s).
Proof.
  revert s. induction es as [|e es IH]; intros s H; [exact H|].
  apply IH, reachable_dispatch, H.
Qed.

(** What a caller who is not logged in is offered instead, the Admin Login
    button, opens the login modal and leaves the view. *)
Lemma admin_login_keeps_view {conversion : JS.CaseConversion} (s : AppState) :
  view (dispatch ClickAdminLogin s) = view s.
Proof.
  unfold dispatch. destruct (step ClickAdminLogin s) eqn:E; [|reflexivity].
  apply step_inv in E. destruct E as [_ ->]. rewrite runEffects_view. reflexivity.
Qed.

(** C4, as the code has it. In every reachable state the admin view is
    rendered only when the view is [admin] and the caller is logged in with
    a role set; the gate does not test that the role is a recognized one.
    The Admin control exists only for a logged-in caller with a recognized
    role: for anyone else it makes no transition and the state, the view
    included, stays as it was (the Admin Login button opens the login modal
    and leaves the view). The view itself is not guarded: the login-success
    callback sets it to [admin] whatever the login state and the role, and
    the admin view is then rendered exactly when the caller is logged in
    with a role set. *)
Theorem C4_admin_gate {conversion : JS.CaseConversion} (s : AppState) :
  reachable s ->
  (rendersAdminView s = true ->
     view s = admin /\ isLoggedIn (auth s) = true /\ JS.truthy (role (auth s)) = true)
  /\ (isLoggedIn (auth s) = false \/ recognizedRole (role (auth s)) = false ->
        step NavigateAdmin s = None
        /\ dispatch NavigateAdmin s = s
        /\ view (dispatch NavigateAdmin s) = view s
        /\ view (dispatch ClickAdminLogin s) = view s)
  /\ (forall s',
        step LoginModalSuccess s = Some s' ->
        view s' = admin /\ auth s' = auth s
        /\ rendersAdminView s' = isLoggedIn (auth s) && JS.truthy (role (auth s))).
Proof.
  intros _. split; [|split].
  - apply rendersAdminView_iff.
  - intros H.
    assert (D : enabled NavigateAdmin s = false).
    { cbn [enabled]. destruct H as [H | H]; rewrite H.
      - now rewrite andb_false_r.
      - apply andb_false_r. }
    destruct (dispatch_disabled _ _ D) as [H1 H2].
    rewrite H2. split; [exact H1|]. split; [reflexivity|]. split; [reflexivity|].
    apply admin_login_keeps_view.
  - intros s' H. apply step_inv in H. destruct H as [_ ->].
    rewrite rendersAdminView_gate.
    rewrite runEffects_view, runEffects_auth.
    split; [reflexivity|]. split; reflexivity.
Qed.

Lemma C4_admin_gate_witness :
  let s := run [ClickAdminLogin] (mount (initialState visitor [])) in
  let s' := dispatch LoginModalSuccess s in
  reachable s
  /\ (isLoggedIn (auth s) = false \/ recognizedRole (role (auth s)) = false)
  /\ step LoginModalSuccess s = Some s'
  /\ (step NavigateAdmin s = None
      /\ dispatch NavigateAdmin s = s
      /\ view (dispatch NavigateAdmin s) = view s
      /\ view (dispatch ClickAdminLogin s) = view s)
  /\ (view s' = admin /\ auth s' = auth s
      /\ rendersAdminView s' = isLoggedIn (auth s) && JS.truthy (role (auth s))).
Proof.
  cbv zeta.
  assert (R : reachable (run [ClickAdminLogin] (mount (initialState visitor []))))
    by apply reachable_run, reachable_mount.
  destruct (C4_admin_gate (run [ClickAdminLogin] (mount (initialState visitor []))) R)
    as (_ & N & L).
  split; [exact R|].
  split; [left; reflexivity|].
  split; [vm_compute; reflexivity|].
  split; [apply N; left; reflexivity|].
  apply L. vm_compute. reflexivity.
Defined.

(** C4, as stated, fails: with the login modal open and nobody logged in, the
    login-success callback takes the view from [store] to [admin], and the
    caller is still not logged in afterwards. *)
Lemma C4_admin_view_not_guarded : ~ adminViewGuarded.
Proof.
  intros [_ H].
  specialize (H LoginModalSuccess
                (run [ClickAdminLogin] (mount (initialState visitor [])))
                (run [ClickAdminLogin; LoginModalSuccess] (mount (initialState visitor [])))).
  assert (E : admin = store); [|discriminate E].
  apply H.
  - apply reachable_run, reachable_mount.
  - vm_compute. reflexivity.
  - reflexivity.
  - reflexivity.
  - reflexivity.
Qed.

(** A caller who logs in with a role that is none of the three is shown the
    admin view: the modal reports the login, the view becomes [admin], and
    the gate finds a role. *)
Example admin_view_for_unrecognized_role :
  let s := run [ClickAdminLogin; AuthChanged customer; LoginModalSuccess]
             (mount (initialState visitor [])) in
  reachable s
  /\ recognizedRole (role (auth s)) = false
  /\ render s = AdminView "zainab" "customer".
Proof.
  cbv zeta. split; [apply reachable_run, reachable_mount|].
  split; vm_compute; reflexivity.
Qed.

(** The view changes to [admin] by the Admin control or by the login-success
    callback, and by nothing else. *)
Lemma admin_entry_events {conversion : JS.CaseConversion} (e : Event) (s s' : AppState) :
  step e s = Some s' -> view s' = admin -> view s <> admin ->
  e = NavigateAdmin \/ e = LoginModalSuccess.
Proof.
  intros H V N. apply step_inv in H. destruct H as [_ ->].
  rewrite runEffects_view in V.
  destruct e; auto; cbn in V; try congruence.
  destruct (isLoggedIn (auth s)); cbn in V; congruence.
Qed.

(** The login-success callback sets the view without looking at the login
    state; what is then rendered is decided by the gate of [render]. *)
Lemma login_success_sets_admin {conversion : JS.CaseConversion} (s s' : AppState) :
  step LoginModalSuccess s = Some s' ->
  view s' = admin /\ auth s' = auth s /\ isLoginModalOpen s' = false.
Proof.
  intros H. apply step_inv in H. destruct H as [_ ->].
  rewrite runEffects_view, runEffects_auth, runEffects_isLoginModalOpen.
  repeat split.
Qed.

(** C10. With the view set to [admin] and a caller who is not logged in or
    has no role, the component renders the standard page with the store
    view as its content and without the footer (the footer test looks at the
    name of the view). *)
Theorem C10_admin_fallthrough {conversion : JS.CaseConversion} (s : AppState) :
  view s = admin ->
  isLoggedIn (auth s) = false \/ role (auth s) = None ->
  render s = StandardPage (StoreView (gridRegion s)) false (isCartOpen s) (isLoginModalOpen s)
  /\ rendersStoreView s = true
  /\ view s = admin.
Proof.
  intros V H.
  assert (R : render s =
    StandardPage (StoreView (gridRegion s)) false (isCartOpen s) (isLoginModalOpen s)).
  { unfold render, renderCurrentView. rewrite V.
    destruct H as [H | H]; rewrite H; rewrite ?andb_false_r; reflexivity. }
  split; [exact R|]. split; [|exact V].
  unfold rendersStoreView. now rewrite R.
Qed.

Lemma C10_admin_fallthrough_witness :
  let s := run [ClickAdminLogin; LoginModalSuccess] (mount (initialState visitor [])) in
  reachable s
  /\ view s = admin
  /\ (isLoggedIn (auth s) = false \/ role (auth s) = None)
  /\ render s = StandardPage (StoreView (gridRegion s)) false (isCartOpen s) (isLoginModalOpen s).
Proof.
  cbv zeta.
  split; [apply reachable_run, reachable_mount|].
  split; [reflexivity|].
  split; [left; reflexivity|].
  apply C10_admin_fallthrough; [reflexivity | left; reflexivity].
Defined.

(** ** Overlays *)

(** Apart from a successful login, a handler that changes the view does not
    touch the login modal. *)
Lemma handle_login_modal (e : Event) (s : AppState) :
  view (handle e s) <> view s -> e <> LoginModalSuccess ->
  isLoginModalOpen (handle e s) = isLoginModalOpen s.
Proof.
  intros V L. destruct e; try reflexivity; try congruence;
    cbn in V |- *; try (exfalso; apply V; reflexivity).
  destruct (isLoggedIn (auth s)); [reflexivity | exfalso; apply V; reflexivity].
Qed.

(** C5, as the code has it. Whenever a transition changes the view, the cart
    panel and the mobile menu are closed afterwards. The login modal is not
    reset by the change of view: it is closed by a successful login (which
    also changes the view), and otherwise stays as it was. *)
Theorem C5_view_change_closes_cart_and_menu {conversion : JS.CaseConversion} (e : Event) (s s' : AppState) :
  step e s = Some s' -> view s' <> view s ->
  isCartOpen s' = false
  /\ isMobileMenuOpen s' = false
  /\ (e = LoginModalSuccess -> isLoginModalOpen s' = false)
  /\ (e <> LoginModalSuccess -> isLoginModalOpen s' = isLoginModalOpen s).
Proof.
  intros H V. apply step_inv in H. destruct H as [_ ->].
  rewrite runEffects_view in V.
  destruct (runEffects_view_changed s (handle e s)) as [C M].
  { apply viewDepsChanged_iff. exact V. }
  rewrite runEffects_isLoginModalOpen.
  split; [exact C|]. split; [exact M|]. split.
  - intros ->. reflexivity.
  - intros L. apply handle_login_modal; assumption.
Qed.

Lemma C5_view_change_closes_cart_and_menu_witness :
  let s := run [ClickCart; ToggleMobileMenu; ClickAdminLogin] (mount (initialState visitor [])) in
  let s' := dispatch NavigateContact s in
  (isCartOpen s = true /\ isMobileMenuOpen s = true /\ isLoginModalOpen s = true)
  /\ step NavigateContact s = Some s'
  /\ view s' <> view s
  /\ isCartOpen s' = false
  /\ isMobileMenuOpen s' = false
  /\ isLoginModalOpen s' = isLoginModalOpen s.
Proof.
  cbv zeta.
  split; [vm_compute; auto|].
  split; [vm_compute; reflexivity|].
  split; [vm_compute; discriminate|].
  destruct (C5_view_change_closes_cart_and_menu NavigateContact
              (run [ClickCart; ToggleMobileMenu; ClickAdminLogin]
                 (mount (initialState visitor [])))
              (dispatch NavigateContact
                 (run [ClickCart; ToggleMobileMenu; ClickAdminLogin]
                    (mount (initialState visitor [])))))
    as (C & M & _ & L).
  - vm_compute. reflexivity.
  - vm_compute. discriminate.
  - split; [exact C|]. split; [exact M|]. apply L. discriminate.
Defined.

(** C5, as stated, fails: with the login modal open, going to the contact
    view changes the view and the modal stays open. *)
Lemma C5_login_modal_stays_open : ~ viewChangeClosesAllOverlays.
Proof.
  intros H.
  specialize (H NavigateContact
                (run [ClickAdminLogin] (mount (initialState visitor [])))
                (run [ClickAdminLogin; NavigateContact] (mount (initialState visitor [])))).
  destruct H as (_ & _ & L).
  - apply reachable_run, reachable_mount.
  - vm_compute. reflexivity.
  - vm_compute. discriminate.
  - vm_compute in L. discriminate.
Qed.

(** ** Notifications *)

Lemma role_eqb_refl (r : option string) : role_eqb r r = true.
Proof. destruct r as [x|]; [apply String.eqb_refl | reflexivity]. Qed.

Lemma authDepsChanged_same (old new : AppState) :
  auth new = auth old -> authDepsChanged old new = false.
Proof.
  intros H. unfold authDepsChanged. rewrite H, role_eqb_refl.
  now destruct (isLoggedIn (auth old)).
Qed.

Lemma productsDepsChanged_same (old new : AppState) :
  products new = products old -> productsDepsChanged old new = false.
Proof. intros H. unfold productsDepsChanged. now rewrite H, Nat.eqb_refl. Qed.

Lemma viewDepsChanged_same (old new : AppState) :
  view new = view old -> viewDepsChanged old new = false.
Proof.
  intros H. unfold viewDepsChanged. rewrite H.
  now rewrite (proj2 (View_eqb_eq (view old) (view old)) eq_refl).
Qed.

(** A handler that touches the login state leaves the requests alone. *)
Lemma handle_auth_or_requests (e : Event) (s : AppState) :
  auth (handle e s) = auth s
  \/ notificationRequests (handle e s) = notificationRequests s.
Proof.
  destruct e; cbn; auto.
  destruct (isLoggedIn (auth s)); auto.
Qed.

(** C8. A transition that changes the login state to "logged out" or "no
    role" (a logout in particular) leaves the notification list empty and
    starts no request. A failed notification request is only logged: the
    notification list, the product error and the rendered page stay as they
    were, and no new request starts. *)
Theorem C8_notifications {conversion : JS.CaseConversion} (e : Event) (s s' : AppState) :
  step e s = Some s' ->
  (authDepsChanged s s' = true ->
   isLoggedIn (auth s') && JS.truthy (role (auth s')) = false ->
     adminNotifications s' = []
     /\ notificationRequests s' = notificationRequests s)
  /\ (e = ClickLogout \/ e = AdminLogout ->
        isLoggedIn (auth s') = false
        /\ adminNotifications s' = []
        /\ notificationRequests s' = notificationRequests s)
  /\ (forall err, e = NotificationsRejected err ->
        adminNotifications s' = adminNotifications s
        /\ notificationRequests s' = pred (notificationRequests s)
        /\ console s' = [notificationLoadFailed; err] :: console s
        /\ error s' = error s
        /\ render s' = render s).
Proof.
  intros H. apply step_inv in H. destruct H as [En ->].
  assert (P1 : authDepsChanged s (handle e s) = true ->
               isLoggedIn (auth (handle e s)) && JS.truthy (role (auth (handle e s))) = false ->
               adminNotifications (runEffects s (handle e s)) = []
               /\ notificationRequests (runEffects s (handle e s)) = notificationRequests s).
  { intros D L.
    destruct (runEffects_logged_out s (handle e s) D L) as [N R].
    split; [exact N|]. rewrite R.
    destruct (handle_auth_or_requests e s) as [A | Q]; [|exact Q].
    rewrite (authDepsChanged_same _ _ A) in D. discriminate. }
  split; [|split].
  - unfold authDepsChanged in *. rewrite !runEffects_auth. exact P1.
  - intros E.
    assert (L : isLoggedIn (auth s) = true).
    { destruct E as [-> | ->]; cbn [enabled] in En.
      - apply andb_true_iff in En. tauto.
      - apply rendersAdminView_iff in En. tauto. }
    assert (A : auth (handle e s) = logout (auth s)) by (destruct E as [-> | ->]; reflexivity).
    rewrite runEffects_auth, A. split; [reflexivity|].
    apply P1.
    + unfold authDepsChanged. rewrite A, L. reflexivity.
    + rewrite A. reflexivity.
  - intros err ->.
    rewrite runEffects_nothing_changed.
    + repeat split.
    + apply authDepsChanged_same. reflexivity.
    + apply productsDepsChanged_same. reflexivity.
    + apply viewDepsChanged_same. reflexivity.
Qed.

Lemma C8_notifications_witness :
  let s := run [NotificationsResolved [mkNotification "n1" order "New order" "2024-01-01" false]]
             (mount (initialState administrator [])) in
  let s' := dispatch ClickLogout s in
  (length (adminNotifications s) = 1%nat /\ step ClickLogout s = Some s')
  /\ isLoggedIn (auth s') = false
  /\ adminNotifications s' = []
  /\ notificationRequests s' = notificationRequests s.
Proof.
  cbv zeta. split; [split; vm_compute; reflexivity|].
  apply (C8_notifications ClickLogout
           (run [NotificationsResolved [mkNotification "n1" order "New order" "2024-01-01" false]]
              (mount (initialState administrator [])))).
  - vm_compute. reflexivity.
  - left. reflexivity.
Defined.

Example failed_notification_request :
  let s := mount (initialState administrator []) in
  let s' := dispatch (NotificationsRejected "timeout") s in
  notificationRequests s = 1%nat
  /\ notificationRequests s' = 0%nat
  /\ adminNotifications s' = adminNotifications s
  /\ console s' = [[notificationLoadFailed; "timeout"]].
Proof. vm_compute. auto. Qed.

(** ** The product load *)

(** A handler either ends loading or leaves the loading flag and the error. *)
Lemma handle_loading (e : Event) (s : AppState) :
  isLoading (handle e s) = false
  \/ (isLoading (handle e s) = isLoading s /\ error (handle e s) = error s).
Proof.
  destruct e; cbn; auto.
  destruct (isLoggedIn (auth s)); auto.
Qed.

(** While a load is shown as running there is no error. *)
Lemma loading_without_error {conversion : JS.CaseConversion} (s : AppState) :
  reachable s -> isLoading s = true -> error s = None.
Proof.
  induction 1 as [a c | e s s' Hs IH Hstep].
  - intros _. unfold mount, initialState, notificationsEffect.
    cbn [auth]. destruct (isLoggedIn a && JS.truthy (role a)); reflexivity.
  - apply step_inv in Hstep. destruct Hstep as [_ ->].
    destruct (runEffects_loading s (handle e s)) as [[L E] | [L E]].
    + rewrite L, E.
      destruct (handle_loading e s) as [F | [L' E']].
      * rewrite F. discriminate.
      * rewrite L', E'. exact IH.
    + intros _. exact E.
Qed.

(** C7. In every reachable state the parts rendered in the grid region
    belong to one single state (loading, error or loaded), and something is
    rendered. When a product request fails, the error message is set, loading
    ends, the product list stays, no request starts (the count of requests in
    flight goes down by one), and the region shows the error panel and
    nothing else. *)
Theorem C7_grid_states_exclusive {conversion : JS.CaseConversion} (s : AppState) :
  reachable s ->
  (exists st,
     gridRegion s <> []
     /\ Forall (fun part => partState part = st) (gridRegion s)
     /\ (st = Loading <-> isLoading s = true)
     /\ (st = Failed <-> JS.truthy (error s) = true))
  /\ (forall err s',
        step (ProductsRejected err) s = Some s' ->
        error s' = Some productLoadFailed
        /\ isLoading s' = false
        /\ products s' = products s
        /\ productRequests s' = pred (productRequests s)
        /\ gridRegion s' = [ErrorPanel productLoadFailed]).
Proof.
  intros R. split.
  - pose proof (loading_without_error s R) as Inv.
    unfold gridRegion.
    destruct (isLoading s) eqn:L.
    + rewrite (Inv eq_refl). cbn. exists Loading.
      split; [discriminate|]. split; [repeat constructor|].
      split; split; congruence.
    + destruct (JS.truthy (error s)) eqn:T; cbn.
      * exists Failed. split; [discriminate|]. split; [repeat constructor|].
        split; split; congruence.
      * exists Loaded. split; [discriminate|]. split.
        -- destruct (length (filteredAndSortedProducts (products s) (filters s)) =? 0)%nat;
             repeat constructor.
        -- split; split; congruence.
  - intros err s' H. apply step_inv in H. destruct H as [_ ->].
    rewrite runEffects_nothing_changed.
    + repeat split.
    + apply authDepsChanged_same. reflexivity.
    + apply productsDepsChanged_same. reflexivity.
    + apply viewDepsChanged_same. reflexivity.
Qed.

Lemma C7_grid_states_exclusive_witness :
  let s := mount (initialState visitor []) in
  let s' := dispatch (ProductsRejected "network") s in
  reachable s
  /\ step (ProductsRejected "network") s = Some s'
  /\ gridRegion s = [LoadingSkeleton 8]
  /\ error s' = Some productLoadFailed
  /\ isLoading s' = false
  /\ products s' = products s
  /\ productRequests s' = pred (productRequests s)
  /\ gridRegion s' = [ErrorPanel productLoadFailed].
Proof.
  cbv zeta.
  split; [apply reachable_mount|].
  split; [vm_compute; reflexivity|].
  split; [vm_compute; reflexivity|].
  apply (proj2 (C7_grid_states_exclusive (mount (initialState visitor []))
                  (reachable_mount visitor []))
           "network").
  vm_compute. reflexivity.
Defined.

(** A load that succeeds shows the grid; one that returns nothing shows the
    empty grid and the "no products" panel. *)
Example loaded_grid :
  map partState
    (gridRegion (run [ProductsResolved [sample "a" 10 3]] (mount (initialState visitor []))))
  = [Loaded]
  /\ map partState
       (gridRegion (run [ProductsResolved []] (mount (initialState visitor []))))
     = [Loaded; Loaded].
Proof. split; vm_compute; reflexivity. Qed.

(** ** Placing an order *)

Lemma string_of_uint_noDash (d : Decimal.uint) : noDash (NilEmpty.string_of_uint d).
Proof. induction d; simpl; auto; split; auto; discriminate. Qed.

Lemma decimal_noDash (n : N) : noDash (JS.decimal n).
Proof.
  unfold JS.decimal, NilZero.string_of_uint.
  destruct (N.to_uint n); try apply string_of_uint_noDash.
  simpl. split; [discriminate | exact I].
Qed.

Lemma to_uint_nonnil (n : N) : N.to_uint n <> Decimal.Nil.
Proof.
  destruct n as [|p]; [discriminate|].
  apply DecimalPos.Unsigned.to_uint_nonnil.
Qed.

Lemma decimal_inj (a b : N) : JS.decimal a = JS.decimal b -> a = b.
Proof.
  unfold JS.decimal. intros H.
  apply DecimalN.Unsigned.to_uint_inj.
  pose proof (NilZero.usu _ (to_uint_nonnil a)) as Ha.
  pose proof (NilZero.usu _ (to_uint_nonnil b)) as Hb.
  rewrite H in Ha. congruence.
Qed.

(** Two texts without [-], each followed by [-] and a rest: equal wholes have
    equal parts. *)
Lemma split_at_dash (a b x y : string) :
  noDash a -> noDash b ->
  (a ++ String "-" x)%string = (b ++ String "-" y)%string -> a = b /\ x = y.
Proof.
  revert b. induction a as [|c a IH]; intros [|d b] Ha Hb H; simpl in *.
  - injection H as ->. auto.
  - injection H as <- _. destruct Hb as [Hb _]. congruence.
  - injection H as -> _. destruct Ha as [Ha _]. congruence.
  - injection H as -> H. destruct Ha as [_ Ha], Hb as [_ Hb].
    destruct (IH b Ha Hb H) as [-> ->]. auto.
Qed.

(** The identifier determines the clock reading and the suffix it was built
    from, and nothing else of the random text. *)
Lemma orderId_eq_iff (now1 now2 : N) (random1 random2 : string) :
  orderId now1 random1 = orderId now2 random2
  <-> now1 = now2 /\ orderSuffix random1 = orderSuffix random2.
Proof.
  unfold orderId. split.
  - intros H. cbn [String.append] in H. injection H as H.
    apply split_at_dash in H; try apply decimal_noDash.
    destruct H as [H1 H2]. split; [exact (decimal_inj _ _ H1) | exact H2].
  - intros [-> ->]. reflexivity.
Qed.

Lemma orderId_nonempty (now : N) (random36 : string) : orderId now random36 <> "".
Proof. unfold orderId. cbn [String.append]. discriminate. Qed.

(** C6, as the code has it. Placing an order sets the view to
    [confirmation], empties the cart (item count 0) and records a non-empty
    order identifier. Two orders get the same identifier exactly when the
    clock reading and the random suffix are the same in both; identifiers
    are distinct whenever the clock readings differ or the suffixes differ,
    and only then. *)
Theorem C6_place_order {conversion : JS.CaseConversion} (s s' : AppState) (now : N) (random36 : string) :
  step (PlaceOrder now random36) s = Some s' ->
  view s' = confirmation
  /\ itemCount (cart s') = 0%nat
  /\ lastOrderId s' = Some (orderId now random36)
  /\ orderId now random36 <> ""
  /\ (forall now2 random2,
        orderId now2 random2 = orderId now random36
        <-> now2 = now /\ orderSuffix random2 = orderSuffix random36).
Proof.
  intros H. apply step_inv in H. destruct H as [_ ->].
  rewrite runEffects_view, runEffects_cart, runEffects_lastOrderId.
  split; [reflexivity|]. split; [reflexivity|]. split; [reflexivity|].
  split; [apply orderId_nonempty|].
  intros now2 random2. apply orderId_eq_iff.
Qed.

Lemma C6_place_order_witness :
  let s := run [CartChanged [mkCartItem (sample "a" 10 3) 2]; MiniCartCheckout]
             (mount (initialState visitor [])) in
  let s' := dispatch (PlaceOrder 1700000000000 "0.4fzyo82mvyr") s in
  (itemCount (cart s) = 2%nat
   /\ step (PlaceOrder 1700000000000 "0.4fzyo82mvyr") s = Some s')
  /\ view s' = confirmation
  /\ itemCount (cart s') = 0%nat
  /\ lastOrderId s' = Some "ORD-1700000000000-4FZYO".
Proof.
  cbv zeta. split; [split; vm_compute; reflexivity|].
  destruct (C6_place_order
              (run [CartChanged [mkCartItem (sample "a" 10 3) 2]; MiniCartCheckout]
                 (mount (initialState visitor [])))
              (dispatch (PlaceOrder 1700000000000 "0.4fzyo82mvyr")
                 (run [CartChanged [mkCartItem (sample "a" 10 3) 2]; MiniCartCheckout]
                    (mount (initialState visitor []))))
              1700000000000 "0.4fzyo82mvyr") as (V & C & L & _).
  - vm_compute. reflexivity.
  - split; [exact V|]. split; [exact C|]. rewrite L. vm_compute. reflexivity.
Defined.

(** C6, as stated, fails: two orders placed in one session with the same
    clock reading and the same random text get the same identifier. *)
Lemma C6_same_identifier_twice : ~ orderIdsAlwaysDistinct.
Proof.
  intros H.
  apply (H (run [MiniCartCheckout] (mount (initialState visitor [])))
           1700000000000%N "0.4fzyo82mvyr"
           [ViewNavigateToStore; MiniCartCheckout]
           1700000000000%N "0.4fzyo82mvyr"
           (run [MiniCartCheckout; PlaceOrder 1700000000000 "0.4fzyo82mvyr"]
              (mount (initialState visitor [])))
           (run [MiniCartCheckout; PlaceOrder 1700000000000 "0.4fzyo82mvyr";
                 ViewNavigateToStore; MiniCartCheckout;
                 PlaceOrder 1700000000000 "0.4fzyo82mvyr"]
              (mount (initialState visitor [])))).
  - apply reachable_run, reachable_mount.
  - vm_compute. reflexivity.
  - vm_compute. reflexivity.
  - vm_compute. reflexivity.
Qed.

(** * Further properties of the component *)

(** ** The derivation, continued *)

Lemma filter_all {A : Type} (f : A -> bool) (l : list A) :
  (forall x, In x l -> f x = true) -> List.filter f l = l.
Proof.
  induction l as [|x l IH]; intros H; [reflexivity|].
  cbn [List.filter]. rewrite (H x (or_introl eq_refl)), IH; [reflexivity|].
  intros y Hy. apply H. now right.
Qed.

Lemma StronglySorted_weaken {A : Type} (R R' : A -> A -> Prop) (l : list A) :
  (forall x y, R x y -> R' x y) -> StronglySorted R l -> StronglySorted R' l.
Proof.
  intros HR. induction 1 as [|x l Hl IH Hx]; constructor; [exact IH|].
  eapply List.Forall_impl; [|exact Hx]. intros y. apply HR.
Qed.

(** A list in which the comparator never asks a later element to come before
    an earlier one is left as it is by the sort. *)
Lemma Array_sort_of_sorted {A : Type} (comparefn : A -> A -> JS.number) (l : list A) :
  StronglySorted (fun x y => JS.goesAfter comparefn x y = false) l ->
  JS.Array_sort comparefn l = l.
Proof.
  induction 1 as [|x l Hl IH Hx]; [reflexivity|].
  cbn [JS.Array_sort]. rewrite IH.
  destruct l as [|y l]; [reflexivity|].
  cbn [JS.sortInsert]. inversion Hx as [|? ? Hxy _]; subst. now rewrite Hxy.
Qed.

Lemma le_lt_false (a b : JS.number) : JS.le a b = true -> JS.lt b a = false.
Proof.
  destruct a, b; simpl; try congruence; intros H; now apply negb_true_iff in H.
Qed.

Lemma ascending_no_swap {A : Type} (key : A -> JS.number) (x y : A) :
  JS.le (key x) (key y) = true ->
  JS.goesAfter (fun a b => JS.sub (key a) (key b)) x y = false.
Proof.
  intros H. unfold JS.goesAfter, JS.sortCompare.
  rewrite sub_gt_zero; [apply le_lt_false, H | |].
  - exact (le_notNaN_l _ _ H).
  - exact (le_notNaN_r _ _ H).
Qed.

Lemma descending_no_swap {A : Type} (key : A -> JS.number) (x y : A) :
  JS.ge (key x) (key y) = true ->
  JS.goesAfter (fun a b => JS.sub (key b) (key a)) x y = false.
Proof.
  unfold JS.ge. intros H. unfold JS.goesAfter, JS.sortCompare.
  rewrite sub_gt_zero; [apply le_lt_false, H | |].
  - exact (le_notNaN_l _ _ H).
  - exact (le_notNaN_r _ _ H).
Qed.

(** Sorting a second time with the same key changes nothing, on products
    whose price and rating are numbers. *)
Lemma sort_twice (sortKey : string) (l : list Product) :
  Forall (fun p => notNaN (price p)) l ->
  Forall (fun p => notNaN (rating p)) l ->
  JS.Array_sort (compareProducts sortKey) (JS.Array_sort (compareProducts sortKey) l)
  = JS.Array_sort (compareProducts sortKey) l.
Proof.
  intros Hp Hr. apply Array_sort_of_sorted. unfold compareProducts.
  destruct (String.eqb sortKey "price_asc");
    [|destruct (String.eqb sortKey "price_desc");
      [|destruct (String.eqb sortKey "rating_desc")]]; cbv beta iota.
  - eapply StronglySorted_weaken; [|apply (ascending_sorted price), Hp].
    intros x y. apply (ascending_no_swap price).
  - eapply StronglySorted_weaken; [|apply (descending_sorted price), Hp].
    intros x y. apply (descending_no_swap price).
  - eapply StronglySorted_weaken; [|apply (descending_sorted rating), Hr].
    intros x y. apply (descending_no_swap rating).
  - rewrite Array_sort_no_swap by reflexivity.
    clear Hp Hr. induction l as [|x l IH]; constructor; [exact IH|].
    apply List.Forall_forall. reflexivity.
Qed.

(** X1. Deriving again from the derived list, with the same criteria and sort
    key, gives the derived list back: nothing more is filtered out and the
    order stays. *)
Theorem derivation_idempotent {conversion : JS.CaseConversion} (products : list Product) (f : Filters) :
  filteredAndSortedProducts (filteredAndSortedProducts products f) f
  = filteredAndSortedProducts products f.
Proof.
  unfold filteredAndSortedProducts at 1.
  assert (Hkeep : JS.Array_filter (matchesFilters f) (filteredAndSortedProducts products f)
                  = filteredAndSortedProducts products f).
  { apply filter_all. intros p Hp. unfold filteredAndSortedProducts in Hp.
    apply (proj1 (Array_sort_In _ _ _)) in Hp.
    apply filter_In in Hp. tauto. }
  rewrite Hkeep. unfold filteredAndSortedProducts.
  apply sort_twice; [apply filtered_price_notNaN | apply filtered_rating_notNaN].
Qed.

(** X2. The sort key decides the order only: under any two sort keys the
    derived lists hold the same products the same number of times, and never
    more products than the full list ("Showing N of M"). *)
Theorem sort_key_only_reorders {conversion : JS.CaseConversion} (products : list Product) (f : Filters) (key1 key2 : string) :
  Permutation (filteredAndSortedProducts products (withSortKey key1 f))
              (filteredAndSortedProducts products (withSortKey key2 f))
  /\ (length (filteredAndSortedProducts products f) <= length products)%nat.
Proof.
  unfold filteredAndSortedProducts, withSortKey.
  change (matchesFilters (setSortBy key1 f)) with (matchesFilters f).
  change (matchesFilters (setSortBy key2 f)) with (matchesFilters f).
  split.
  - eapply perm_trans; [apply Array_sort_perm|].
    apply Permutation_sym, Array_sort_perm.
  - rewrite (Permutation_length (Array_sort_perm _ _)).
    apply filter_length_le.
Qed.

Lemma includes_empty (s : string) : JS.includes s "" = true.
Proof. destruct s; reflexivity. Qed.

Lemma le_Infinity (a b : JS.number) :
  JS.le b a && JS.le a JS.Infinity = JS.le b a.
Proof. destruct a, b; cbn; rewrite ?andb_true_r, ?andb_false_r; reflexivity. Qed.

(** X3. With the criteria of the first render the component shows, in
    catalog order, the products whose price and rating are at least 0; a
    product with a negative price or rating, or with NaN for either, is left
    out although no filter was chosen. *)
Theorem default_filters_show_nonnegative {conversion : JS.CaseConversion} (products : list Product) :
  filteredAndSortedProducts products defaultFilters = List.filter nonNegative products.
Proof.
  unfold filteredAndSortedProducts.
  rewrite Array_sort_no_swap by reflexivity.
  apply filter_ext. intros p. unfold matchesFilters, nonNegative, JS.ge.
  cbn [searchTerm selectedCategories selectedBrands priceRange minRating defaultFilters
       fst snd length Nat.eqb orb].
  rewrite JS.toLowerCase_empty, includes_empty.
  cbn [andb]. now rewrite le_Infinity.
Qed.

(** X4. The search looks at the term only through its lower-case form: two
    terms with the same lower-case form give the same derived list. *)
Theorem search_depends_on_lower_case_only {conversion : JS.CaseConversion}
    (products : list Product) (f : Filters) (term1 term2 : string) :
  JS.toLowerCase term1 = JS.toLowerCase term2 ->
  filteredAndSortedProducts products (setSearchTerm term1 f)
  = filteredAndSortedProducts products (setSearchTerm term2 f).
Proof.
  intros E. unfold filteredAndSortedProducts, JS.Array_filter. cbn [sortBy setSearchTerm].
  f_equal. apply filter_ext. intros p. unfold matchesFilters.
  cbn [searchTerm selectedCategories selectedBrands priceRange minRating setSearchTerm].
  now rewrite E.
Qed.

Lemma search_depends_on_lower_case_only_witness :
  let ps := [sample "Wheat Flour" 10 3; sample "Rice" 50 5; sample "flour sieve" 5 4] in
  JS.toLowerCase "FLOUR" = JS.toLowerCase "Flour"
  /\ filteredAndSortedProducts ps (setSearchTerm "FLOUR" defaultFilters)
     = filteredAndSortedProducts ps (setSearchTerm "Flour" defaultFilters)
  /\ map name (filteredAndSortedProducts ps (setSearchTerm "FLOUR" defaultFilters))
     = ["Wheat Flour"; "flour sieve"].
Proof.
  cbv zeta. split; [reflexivity|].
  split; [|reflexivity].
  apply search_depends_on_lower_case_only. reflexivity.
Defined.

Lemma category_in_facets (products : list Product) (p : Product) :
  In p products -> JS.Array_includes (categories products) (category p) = true.
Proof.
  intros H. apply Array_includes_iff. unfold categories, JS.Array_from.
  apply new_Set_In, in_map, H.
Qed.

Lemma brand_in_facets (products : list Product) (p : Product) :
  In p products -> JS.Array_includes (brands products) (brand p) = true.
Proof.
  intros H. apply Array_includes_iff. unfold brands, JS.Array_from.
  apply new_Set_In, in_map, H.
Qed.

(** X5. Ticking every category box shows the same list as ticking none, and
    likewise for the brand boxes. *)
Theorem all_facets_selected_is_none_selected {conversion : JS.CaseConversion} (products : list Product) (f : Filters) :
  filteredAndSortedProducts products (setSelectedCategories (categories products) f)
  = filteredAndSortedProducts products (setSelectedCategories [] f)
  /\ filteredAndSortedProducts products (setSelectedBrands (brands products) f)
     = filteredAndSortedProducts products (setSelectedBrands [] f).
Proof.
  unfold filteredAndSortedProducts, JS.Array_filter.
  cbn [sortBy setSelectedCategories setSelectedBrands].
  split; f_equal; apply filter_ext_in; intros p Hp; unfold matchesFilters;
    cbn [searchTerm selectedCategories selectedBrands priceRange minRating
         setSelectedCategories setSelectedBrands length Nat.eqb].
  - rewrite (category_in_facets products p Hp). now rewrite orb_true_r.
  - rewrite (brand_in_facets products p Hp). now rewrite orb_true_r.
Qed.

(** X6. Raising the minimum rating never brings in a product: what is shown
    with the higher minimum is among what is shown with the lower one. *)
Theorem higher_min_rating_shows_less {conversion : JS.CaseConversion} (products : list Product) (f : Filters)
    (low high : JS.number) :
  JS.le low high = true ->
  incl (filteredAndSortedProducts products (setMinRating high f))
       (filteredAndSortedProducts products (setMinRating low f)).
Proof.
  intros H p. unfold filteredAndSortedProducts, JS.Array_filter.
  rewrite !Array_sort_In, !filter_In. unfold matchesFilters, JS.ge.
  cbn [searchTerm selectedCategories selectedBrands priceRange minRating setMinRating].
  rewrite !andb_true_iff. intros (Hin & (Hrest & Hr)).
  split; [exact Hin|]. split; [exact Hrest|].
  exact (le_trans _ _ _ H Hr).
Qed.

Lemma higher_min_rating_shows_less_witness :
  let ps := [sample "a" 10 3; sample "b" 50 5; sample "c" 5 4] in
  JS.le (JS.of_Z 3) (JS.of_Z 4) = true
  /\ incl (filteredAndSortedProducts ps (setMinRating (JS.of_Z 4) defaultFilters))
          (filteredAndSortedProducts ps (setMinRating (JS.of_Z 3) defaultFilters)).
Proof.
  cbv zeta. split; [reflexivity|].
  apply higher_min_rating_shows_less. reflexivity.
Defined.

Lemma le_of_Z (x : QArith_base.Q) (z : Z) :
  JS.le (JS.Fin x) (JS.of_Z z) = true <-> (QArith_base.Qnum x <= z * Zpos (QArith_base.Qden x))%Z.
Proof.
  unfold JS.of_Z. rewrite le_Fin. unfold QArith_base.Qle. cbn. lia.
Qed.

Lemma of_Z_le (x : QArith_base.Q) (z : Z) :
  JS.le (JS.of_Z z) (JS.Fin x) = true <-> (z * Zpos (QArith_base.Qden x) <= QArith_base.Qnum x)%Z.
Proof.
  unfold JS.of_Z. rewrite le_Fin. unfold QArith_base.Qle. cbn. lia.
Qed.

Ltac bool_to_Z :=
  repeat match goal with
         | |- context [JS.le (JS.Fin ?x) (JS.of_Z ?z)] =>
             let E := fresh "E" in
             destruct (JS.le (JS.Fin x) (JS.of_Z z)) eqn:E;
             [apply le_of_Z in E | apply not_true_iff_false in E; rewrite le_of_Z in E]
         | |- context [JS.le (JS.of_Z ?z) (JS.Fin ?x)] =>
             let E := fresh "E" in
             destruct (JS.le (JS.of_Z z) (JS.Fin x)) eqn:E;
             [apply of_Z_le in E | apply not_true_iff_false in E; rewrite of_Z_le in E]
         end.

(** The price test of "All Prices" is the disjunction of the price tests of
    the four bounded ranges. *)
Lemma price_ranges_cover (x : JS.number) :
  JS.ge x (JS.of_Z 0) && JS.le x JS.Infinity
  = existsb (fun r => JS.ge x (fst r) && JS.le x (snd r)) boundedPriceRanges.
Proof.
  unfold boundedPriceRanges, JS.ge. cbn [firstn priceRangeButtons existsb fst snd].
  destruct x as [q| | |]; try reflexivity.
  change (JS.le (JS.Fin q) JS.Infinity) with true.
  rewrite !andb_true_r, orb_false_r.
  bool_to_Z; cbn [andb orb]; try reflexivity; exfalso; lia.
Qed.

(** X7. The four bounded price ranges together cover "All Prices": a product
    passes the criteria with "All Prices" exactly when it passes them with
    at least one of "Under $50", "$50 to $200", "$200 to $1000" and
    "Over $1000" (the ranges are inclusive, so a price on a boundary is in
    two of them). *)
Theorem bounded_price_ranges_cover_all {conversion : JS.CaseConversion} (f : Filters) (p : Product) :
  matchesFilters (setPriceRange (JS.of_Z 0, JS.Infinity) f) p
  = existsb (fun r => matchesFilters (setPriceRange r f) p) boundedPriceRanges.
Proof.
  unfold matchesFilters.
  cbn [searchTerm selectedCategories selectedBrands priceRange minRating setPriceRange].
  cbn [fst snd]. rewrite price_ranges_cover.
  unfold boundedPriceRanges. cbn [firstn priceRangeButtons existsb fst snd].
  destruct (JS.includes (JS.toLowerCase (name p)) (JS.toLowerCase (searchTerm f)));
    destruct ((length (selectedCategories f) =? 0)%nat
              || JS.Array_includes (selectedCategories f) (category p));
    destruct ((length (selectedBrands f) =? 0)%nat
              || JS.Array_includes (selectedBrands f) (brand p));
    destruct (JS.ge (rating p) (minRating f));
    cbn [andb orb]; rewrite ?andb_true_r, ?andb_false_r, ?orb_false_r; reflexivity.
Qed.

Example price_on_a_boundary :
  map (fun r => matchesFilters (setPriceRange r defaultFilters) (sample "a" 50 3))
      priceRangeButtons
  = [true; true; false; false; true].
Proof. reflexivity. Qed.

(** X8. A sort key that is none of [price_asc], [price_desc] and
    [rating_desc] (the selector offers [relevance]; the state is a plain
    string) leaves the filtered list in catalog order. *)
Theorem unknown_sort_key_keeps_order {conversion : JS.CaseConversion} (products : list Product) (f : Filters) :
  ~ In (sortBy f) ["price_asc"; "price_desc"; "rating_desc"] ->
  filteredAndSortedProducts products f = List.filter (matchesFilters f) products.
Proof.
  intros H. apply other_key_keeps_order;
    (destruct (String.eqb_spec (sortBy f) "price_asc") as [E|_];
     [exfalso; apply H; rewrite E; simpl; tauto|]);
    (destruct (String.eqb_spec (sortBy f) "price_desc") as [E|_];
     [exfalso; apply H; rewrite E; simpl; tauto|]);
    (destruct (String.eqb_spec (sortBy f) "rating_desc") as [E|_];
     [exfalso; apply H; rewrite E; simpl; tauto|]);
    reflexivity.
Qed.

Lemma unknown_sort_key_keeps_order_witness :
  let ps := [sample "a" 10 3; sample "b" 50 5; sample "c" 5 4] in
  let f := withSortKey "name_asc" defaultFilters in
  ~ In (sortBy f) ["price_asc"; "price_desc"; "rating_desc"]
  /\ filteredAndSortedProducts ps f = List.filter (matchesFilters f) ps.
Proof.
  cbv zeta.
  assert (H : ~ In (sortBy (withSortKey "name_asc" defaultFilters))
                   ["price_asc"; "price_desc"; "rating_desc"]).
  { simpl. intros [E | [E | [E | []]]]; discriminate E. }
  split; [exact H|].
  apply unknown_sort_key_keeps_order. exact H.
Defined.

(** ** The facet lists and the selections *)

Lemma fold_Set_add_extends (l acc : list string) :
  exists more, fold_left JS.Set_add l acc = acc ++ more.
Proof.
  revert acc. induction l as [|x l IH]; intros acc.
  - exists []. cbn. now rewrite app_nil_r.
  - cbn [fold_left]. destruct (IH (JS.Set_add acc x)) as [more E]. rewrite E.
    unfold JS.Set_add. destruct (JS.Array_includes acc x).
    + now exists more.
    + exists (x :: more). now rewrite <- app_assoc.
Qed.

(** X9. Products added at the end of the list never reorder or remove the
    entries of a facet list: the facet list of the longer product list starts
    with the facet list of the shorter one. *)
Theorem facets_grow_at_the_end (products added : list Product) :
  (exists more, categories (products ++ added) = categories products ++ more)
  /\ (exists more, brands (products ++ added) = brands products ++ more).
Proof.
  unfold categories, brands, JS.Array_from, JS.new_Set.
  rewrite !map_app, !fold_left_app. split; apply fold_Set_add_extends.
Qed.

Lemma filter_other_In (x y : string) (l : list string) :
  In y (List.filter (fun c => negb (String.eqb c x)) l) <-> In y l /\ y <> x.
Proof.
  rewrite filter_In, negb_true_iff. split; intros [H1 H2]; split; try exact H1.
  - intros ->. now rewrite String.eqb_refl in H2.
  - destruct (String.eqb_spec y x); [contradiction | reflexivity].
Qed.

(** X10. Ticking a box toggles exactly that value in the selection: the value
    is selected afterwards if and only if it was not before, every other
    value keeps its status, a selection without repeats stays without
    repeats, and ticking a value that was not selected and then ticking it
    again gives the selection back as it was. *)
Theorem toggleMember_toggles (x : string) (prev : list string) :
  (In x (toggleMember x prev) <-> ~ In x prev)
  /\ (forall y, y <> x -> (In y (toggleMember x prev) <-> In y prev))
  /\ (List.NoDup prev -> List.NoDup (toggleMember x prev))
  /\ (~ In x prev -> toggleMember x (toggleMember x prev) = prev).
Proof.
  unfold toggleMember at 1 2 3.
  destruct (JS.Array_includes prev x) eqn:E.
  - apply Array_includes_iff in E. unfold JS.Array_filter.
    split; [|split; [|split]].
    + rewrite filter_other_In. tauto.
    + intros y Hy. rewrite filter_other_In. tauto.
    + intros H. apply List.NoDup_filter, H.
    + tauto.
  - assert (N : ~ In x prev).
    { intros H. apply Array_includes_iff in H. congruence. }
    split; [|split; [|split]].
    + rewrite in_app_iff. simpl. tauto.
    + intros y Hy. rewrite in_app_iff. simpl. intuition congruence.
    + intros H. apply (Set_add_NoDup prev x) in H. unfold JS.Set_add in H.
      now rewrite E in H.
    + intros _. unfold toggleMember. rewrite E.
      assert (I : JS.Array_includes (prev ++ [x]) x = true).
      { apply Array_includes_iff, in_app_iff. right. now left. }
      rewrite I. unfold JS.Array_filter. rewrite List.filter_app. cbn [List.filter].
      rewrite String.eqb_refl. cbn [negb]. rewrite app_nil_r.
      apply filter_all. intros y Hy. apply negb_true_iff.
      destruct (String.eqb_spec y x); [subst; contradiction | reflexivity].
Qed.

Example toggle_selected_value_moves_to_the_end :
  toggleMember "rice" (toggleMember "rice" ["flour"; "rice"; "oil"])
  = ["flour"; "oil"; "rice"].
Proof. reflexivity. Qed.

Lemma toggleMember_NoDup (x : string) (prev : list string) :
  List.NoDup prev -> List.NoDup (toggleMember x prev).
Proof.
  intros H. unfold toggleMember. destruct (JS.Array_includes prev x) eqn:E.
  - apply List.NoDup_filter, H.
  - apply (Set_add_NoDup prev x) in H. unfold JS.Set_add in H. now rewrite E in H.
Qed.

Lemma mount_filters (s : AppState) : filters (mount s) = filters s.
Proof.
  unfold mount, notificationsEffect, productsEffect, viewEffect.
  repeat match goal with
         | |- context [if ?b then _ else _] => destruct b
         end; reflexivity.
Qed.

Lemma mount_view (s : AppState) : view (mount s) = view s.
Proof.
  unfold mount, notificationsEffect, productsEffect, viewEffect.
  repeat match goal with
         | |- context [if ?b then _ else _] => destruct b
         end; reflexivity.
Qed.

Lemma mount_lastOrderId (s : AppState) : lastOrderId (mount s) = lastOrderId s.
Proof.
  unfold mount, notificationsEffect, productsEffect, viewEffect.
  repeat match goal with
         | |- context [if ?b then _ else _] => destruct b
         end; reflexivity.
Qed.

(** X11. In every reachable state the selected categories and the selected
    brands hold no value twice. *)
Theorem selections_without_repeats {conversion : JS.CaseConversion} (s : AppState) :
  reachable s ->
  List.NoDup (selectedCategories (filters s)) /\ List.NoDup (selectedBrands (filters s)).
Proof.
  induction 1 as [a c | e s s' Hs IH Hstep].
  - rewrite mount_filters. cbn. split; apply List.NoDup_nil.
  - apply step_inv in Hstep. destruct Hstep as [_ ->].
    rewrite runEffects_filters. destruct IH as [IC IB].
    destruct e; cbn; auto.
    + destruct (isLoggedIn (auth s)); cbn; auto.
    + split; [apply toggleMember_NoDup, IC | exact IB].
    + split; [exact IC | apply toggleMember_NoDup, IB].
Qed.

Lemma selections_without_repeats_witness :
  let s := run [ProductsResolved [sample "a" 10 3]; ToggleCategory "flour"; ToggleBrand "amrah"]
             (mount (initialState visitor [])) in
  reachable s
  /\ selectedCategories (filters s) = ["flour"]
  /\ List.NoDup (selectedCategories (filters s))
  /\ List.NoDup (selectedBrands (filters s)).
Proof.
  cbv zeta.
  split; [apply reachable_run, reachable_mount|].
  split; [vm_compute; reflexivity|].
  apply selections_without_repeats. apply reachable_run, reachable_mount.
Defined.

Lemma strict_eq_le (a b : JS.number) : JS.strict_eq a b = true -> JS.le b a = true.
Proof.
  destruct a, b; simpl; try congruence. intros H.
  apply QArith_base.Qeq_bool_iff in H. apply negb_true_iff.
  destruct (JS.Qlt_bool q q0) eqn:E; [|reflexivity].
  apply Qlt_bool_iff in E. apply QArith_base.Qlt_not_le in E.
  exfalso. apply E. apply QArith_base.Qle_lteq. right. symmetry. exact H.
Qed.

Lemma offered_price_range_from_zero (r : JS.number * JS.number) :
  pairIn r priceRangeButtons = true -> JS.le (JS.of_Z 0) (fst r) = true.
Proof.
  unfold pairIn, priceRangeButtons. cbn [existsb fst snd].
  rewrite !orb_true_iff, !andb_true_iff.
  intros [[H _] | [[H _] | [[H _] | [[H _] | [[H _] | H]]]]]; try discriminate H;
    apply strict_eq_le in H; (eapply le_trans; [|exact H]); reflexivity.
Qed.

Lemma offered_rating_from_zero (r : JS.number) :
  In r offeredRatings -> JS.le (JS.of_Z 0) r = true.
Proof.
  unfold offeredRatings, ratingButtons. cbn [map In].
  intros [<- | [<- | [<- | [<- | [<- | []]]]]]; reflexivity.
Qed.

(** The filter state only ever holds values the store view offers. *)
Lemma filters_offered {conversion : JS.CaseConversion} (s : AppState) :
  reachable s ->
  pairIn (priceRange (filters s)) priceRangeButtons = true
  /\ In (minRating (filters s)) offeredRatings
  /\ In (sortBy (filters s)) sortOptions.
Proof.
  induction 1 as [a c | e s s' Hs IH Hstep].
  - rewrite mount_filters. cbn [filters initialState]. split; [reflexivity|].
    split; [now left | now left].
  - apply step_inv in Hstep. destruct Hstep as [En ->].
    rewrite runEffects_filters. destruct IH as (IP & IR & IS).
    destruct e; cbn [handle];
      try (cbn [filters setView setLoginModalOpen setIsCartOpen setMobileMenuOpen
                handleLogout handleCheckout handleLoginSuccess handlePlaceOrder
                handleCategoryChange handleBrandChange setAuth setCart setLastOrderId
                setProducts setIsLoading setError setProductRequests
                setNotificationRequests setAdminNotifications console_error setFilters
                priceRange minRating sortBy setSearchTerm setSelectedCategories
                setSelectedBrands];
           auto; fail).
    + destruct (isLoggedIn (auth s)); cbn [filters setView setLoginModalOpen]; auto.
    + cbn [filters setFilters priceRange minRating sortBy setSortBy].
      split; [exact IP|]. split; [exact IR|].
      cbn [enabled] in En. apply andb_true_iff in En. destruct En as [_ En].
      exact (proj1 (Array_includes_iff _ _) En).
    + cbn [filters setFilters priceRange minRating sortBy setMinRating].
      split; [exact IP|]. split; [|exact IS].
      cbn [enabled] in En. apply andb_true_iff in En. destruct En as [_ En].
      apply existsb_exists in En. destruct En as (z & Hz & Ez).
      apply Z.eqb_eq in Ez. subst z.
      destruct (JS.strict_eq (minRating (filters s)) (JS.of_Z r)).
      * now left.
      * right. apply in_map. exact Hz.
    + cbn [filters setFilters priceRange minRating sortBy setPriceRange].
      split; [|auto].
      cbn [enabled] in En. apply andb_true_iff in En. tauto.
Qed.

(** X12. In every reachable state the price range is one of the five the
    buttons offer, the minimum rating is 0, 1, 2, 3 or 4, and the sort key is
    one of the four options; so every product shown has a price and a rating
    of at least 0. *)
Theorem shown_products_nonnegative {conversion : JS.CaseConversion} (s : AppState) :
  reachable s ->
  pairIn (priceRange (filters s)) priceRangeButtons = true
  /\ In (minRating (filters s)) offeredRatings
  /\ In (sortBy (filters s)) sortOptions
  /\ Forall (fun p => nonNegative p = true)
       (filteredAndSortedProducts (products s) (filters s)).
Proof.
  intros R. destruct (filters_offered s R) as (HP & HR & HS).
  split; [exact HP|]. split; [exact HR|]. split; [exact HS|].
  apply List.Forall_forall. intros p Hp.
  unfold filteredAndSortedProducts, JS.Array_filter in Hp.
  apply (proj1 (Array_sort_In _ _ _)) in Hp. apply filter_In in Hp.
  destruct Hp as [_ Hp]. apply matchesFilters_iff in Hp.
  destruct Hp as (_ & _ & _ & [Hlo _] & Hr).
  unfold nonNegative. apply andb_true_iff. split.
  - exact (le_trans _ _ _ (offered_price_range_from_zero _ HP) Hlo).
  - exact (le_trans _ _ _ (offered_rating_from_zero _ HR) Hr).
Qed.

Lemma shown_products_nonnegative_witness :
  let s := run [ProductsResolved [sample "a" 10 3; sample "debt" (-5) 4]; ClickRating 3;
                ClickPriceRange (JS.of_Z 0, JS.of_Z 50)]
             (mount (initialState visitor [])) in
  reachable s
  /\ map name (filteredAndSortedProducts (products s) (filters s)) = ["a"]
  /\ Forall (fun p => nonNegative p = true)
       (filteredAndSortedProducts (products s) (filters s)).
Proof.
  cbv zeta.
  split; [apply reachable_run, reachable_mount|].
  split; [vm_compute; reflexivity|].
  apply (shown_products_nonnegative
           (run [ProductsResolved [sample "a" 10 3; sample "debt" (-5) 4]; ClickRating 3;
                 ClickPriceRange (JS.of_Z 0, JS.of_Z 50)]
              (mount (initialState visitor [])))).
  apply reachable_run, reachable_mount.
Defined.

(** ** Loading, continued *)

Lemma handle_productRequests (e : Event) (s : AppState) :
  (productRequests (handle e s) <= productRequests s)%nat.
Proof.
  destruct e; cbn; try lia.
  destruct (isLoggedIn (auth s)); cbn; lia.
Qed.

(** What the effects do to the product load, by whether the effect on
    [products.length] runs and finds the list empty. *)
Lemma runEffects_products_effect (old new : AppState) :
  (productsDepsChanged old new && (length (products new) =? 0)%nat = true ->
     productRequests (runEffects old new) = S (productRequests new)
     /\ isLoading (runEffects old new) = true
     /\ error (runEffects old new) = None)
  /\ (productsDepsChanged old new && (length (products new) =? 0)%nat = false ->
     productRequests (runEffects old new) = productRequests new
     /\ isLoading (runEffects old new) = isLoading new
     /\ error (runEffects old new) = error new).
Proof.
  unfold runEffects, notificationsEffect, productsEffect, viewEffect.
  destruct (authDepsChanged old new);
    [destruct (isLoggedIn (auth new) && JS.truthy (role (auth new)))|];
    cbn [products setNotificationRequests setAdminNotifications];
    destruct (productsDepsChanged old new);
    destruct (length (products new) =? 0)%nat;
    destruct (viewDepsChanged old new);
    cbn; split; intros H; try discriminate H; auto.
Qed.

(** X13. Products are requested only while the list is empty: a transition
    that ends with products in the list starts no request, and a transition
    after which more requests are in flight than before is one that has just
    emptied a list that held products; it leaves the loading flag set and
    the error cleared. *)
Theorem products_requested_only_when_empty {conversion : JS.CaseConversion} (e : Event) (s s' : AppState) :
  step e s = Some s' ->
  (products s' <> [] -> (productRequests s' <= productRequests s)%nat)
  /\ ((productRequests s < productRequests s')%nat ->
        products s <> [] /\ products s' = []
        /\ isLoading s' = true /\ error s' = None).
Proof.
  intros H. apply step_inv in H. destruct H as [_ ->].
  pose proof (handle_productRequests e s) as Hle.
  destruct (runEffects_products_effect s (handle e s)) as [Hrun Hskip].
  rewrite runEffects_products.
  destruct (productsDepsChanged s (handle e s) && (length (products (handle e s)) =? 0)%nat)
    eqn:C.
  - destruct (Hrun eq_refl) as (Q & L & E).
    apply andb_true_iff in C. destruct C as [D Z].
    apply length_zero_iff in Z. split.
    + intros N. contradiction.
    + intros _. split; [|auto].
      intros Old. unfold productsDepsChanged in D. rewrite Old, Z in D. discriminate D.
  - destruct (Hskip eq_refl) as (Q & _ & _). rewrite Q. split; [intros _; exact Hle | lia].
Qed.

Lemma products_requested_only_when_empty_witness :
  let s := run [ProductsResolved [sample "a" 10 3]; NavigateAdmin]
             (mount (initialState administrator [])) in
  let s' := dispatch (AdminSetProducts []) s in
  step (AdminSetProducts []) s = Some s'
  /\ (productRequests s < productRequests s')%nat
  /\ products s <> [] /\ products s' = []
  /\ isLoading s' = true /\ error s' = None.
Proof.
  cbv zeta.
  split; [vm_compute; reflexivity|].
  split; [vm_compute; lia|].
  apply (products_requested_only_when_empty (AdminSetProducts [])
           (run [ProductsResolved [sample "a" 10 3]; NavigateAdmin]
              (mount (initialState administrator [])))).
  - vm_compute. reflexivity.
  - vm_compute. lia.
Defined.

(** X14. A response to a product request stores the list it brings and
    counts the request as done. If the list has products, or if it is empty
    and the list was empty before, loading ends, the error stays as it was
    (a response does not clear an earlier error) and no request starts: an
    empty catalog is not asked for again. *)
Theorem products_response {conversion : JS.CaseConversion} (ps : list Product) (s s' : AppState) :
  step (ProductsResolved ps) s = Some s' ->
  products s' = ps
  /\ (ps <> [] \/ products s = [] ->
        isLoading s' = false
        /\ error s' = error s
        /\ productRequests s' = pred (productRequests s)).
Proof.
  intros H. apply step_inv in H. destruct H as [_ ->].
  rewrite runEffects_products. split; [reflexivity|].
  intros C.
  destruct (runEffects_products_effect s (handle (ProductsResolved ps) s)) as [_ Hskip].
  destruct Hskip as (Q & L & E).
  { unfold productsDepsChanged. cbn [products handle setIsLoading setProducts].
    destruct C as [C | C].
    - destruct ps; [contradiction|]. cbn. apply andb_false_r.
    - rewrite C. destruct ps; cbn; reflexivity. }
  rewrite Q, L, E. repeat split.
Qed.

Lemma products_response_witness :
  let s := mount (initialState visitor []) in
  let s' := dispatch (ProductsResolved []) s in
  step (ProductsResolved []) s = Some s'
  /\ products s = []
  /\ isLoading s' = false
  /\ productRequests s' = 0%nat
  /\ gridRegion s' = [ProductGrid []; NoProductsFound].
Proof.
  cbv zeta.
  split; [vm_compute; reflexivity|].
  split; [reflexivity|].
  destruct (products_response [] (mount (initialState visitor []))
              (dispatch (ProductsResolved []) (mount (initialState visitor []))))
    as (_ & H).
  - vm_compute. reflexivity.
  - destruct H as (L & _ & Q); [right; reflexivity|].
    split; [exact L|]. split; [rewrite Q; reflexivity|].
    vm_compute. reflexivity.
Defined.

Lemma mount_auth (s : AppState) : auth (mount s) = auth s.
Proof.
  unfold mount, notificationsEffect, productsEffect, viewEffect.
  repeat match goal with
         | |- context [if ?b then _ else _] => destruct b
         end; reflexivity.
Qed.

Lemma mount_products (s : AppState) : products (mount s) = products s.
Proof.
  unfold mount, notificationsEffect, productsEffect, viewEffect.
  repeat match goal with
         | |- context [if ?b then _ else _] => destruct b
         end; reflexivity.
Qed.

(** X15. The effects settle in one round: they write none of the values they
    depend on, so the render that follows them runs no effect and leaves the
    state as it is. This holds after the effects of a transition (the render
    compares with the state [new] the effects started from) and after the
    effects of the mount (the render compares with the state the mount
    started from). *)
Theorem effects_settle (old new : AppState) :
  runEffects new (runEffects old new) = runEffects old new
  /\ runEffects new (mount new) = mount new.
Proof.
  split.
  - apply runEffects_nothing_changed.
    + apply authDepsChanged_same, runEffects_auth.
    + apply productsDepsChanged_same, runEffects_products.
    + apply viewDepsChanged_same, runEffects_view.
  - apply runEffects_nothing_changed.
    + apply authDepsChanged_same, mount_auth.
    + apply productsDepsChanged_same, mount_products.
    + apply viewDepsChanged_same, mount_view.
Qed.

(** ** The view controller, continued *)

(** X16. The view changes to [admin] in two ways only: by the Admin control,
    which exists only for a logged-in caller with a recognized role, or by
    the login-success callback of the login modal, which needs the modal to
    be open and looks at nothing else. *)
Theorem admin_view_entry {conversion : JS.CaseConversion} (e : Event) (s s' : AppState) :
  step e s = Some s' -> view s' = admin -> view s <> admin ->
  (e = NavigateAdmin
   /\ isLoggedIn (auth s) = true /\ recognizedRole (role (auth s)) = true)
  \/ (e = LoginModalSuccess /\ isLoginModalOpen s = true).
Proof.
  intros H V N. apply step_inv in H. destruct H as [En ->].
  rewrite runEffects_view in V.
  destruct e; cbn in V; try congruence.
  - left. cbn [enabled] in En. rewrite !andb_true_iff in En. tauto.
  - destruct (isLoggedIn (auth s)); cbn in V; congruence.
  - right. cbn [enabled] in En. rewrite !andb_true_iff in En. tauto.
Qed.

Lemma admin_view_entry_witness :
  let s := mount (initialState administrator []) in
  let s' := dispatch NavigateAdmin s in
  (step NavigateAdmin s = Some s' /\ view s' = admin /\ view s <> admin)
  /\ ((NavigateAdmin = NavigateAdmin
       /\ isLoggedIn (auth s) = true /\ recognizedRole (role (auth s)) = true)
      \/ (NavigateAdmin = LoginModalSuccess /\ isLoginModalOpen s = true)).
Proof.
  cbv zeta.
  assert (H1 : step NavigateAdmin (mount (initialState administrator []))
               = Some (dispatch NavigateAdmin (mount (initialState administrator []))))
    by (vm_compute; reflexivity).
  assert (H2 : view (dispatch NavigateAdmin (mount (initialState administrator []))) = admin)
    by (vm_compute; reflexivity).
  assert (H3 : view (mount (initialState administrator [])) <> admin)
    by (vm_compute; discriminate).
  split; [auto|].
  exact (admin_view_entry _ _ _ H1 H2 H3).
Defined.

(** X17. The account dashboard is entered only by a caller who is logged
    in (through the Account control or the wishlist button). *)
Theorem dashboard_entry {conversion : JS.CaseConversion} (e : Event) (s s' : AppState) :
  step e s = Some s' -> view s' = dashboard -> view s <> dashboard ->
  isLoggedIn (auth s) = true /\ (e = NavigateAccount \/ e = ClickWishlist).
Proof.
  intros H V N. apply step_inv in H. destruct H as [En ->].
  rewrite runEffects_view in V.
  destruct e; cbn in V; try congruence.
  - cbn [enabled] in En. rewrite !andb_true_iff in En. tauto.
  - destruct (isLoggedIn (auth s)); cbn in V; [auto | congruence].
Qed.

Lemma dashboard_entry_witness :
  let s := mount (initialState administrator []) in
  let s' := dispatch ClickWishlist s in
  (step ClickWishlist s = Some s' /\ view s' = dashboard /\ view s <> dashboard)
  /\ isLoggedIn (auth s) = true
  /\ (ClickWishlist = NavigateAccount \/ ClickWishlist = ClickWishlist).
Proof.
  cbv zeta.
  assert (H1 : step ClickWishlist (mount (initialState administrator []))
               = Some (dispatch ClickWishlist (mount (initialState administrator []))))
    by (vm_compute; reflexivity).
  assert (H2 : view (dispatch ClickWishlist (mount (initialState administrator []))) = dashboard)
    by (vm_compute; reflexivity).
  assert (H3 : view (mount (initialState administrator [])) <> dashboard)
    by (vm_compute; discriminate).
  split; [auto|].
  exact (dashboard_entry _ _ _ H1 H2 H3).
Defined.

(** X18. The confirmation view is entered only by placing an order from the
    checkout view, and the checkout view only by the checkout action of the
    cart panel. *)
Theorem confirmation_and_checkout_entry {conversion : JS.CaseConversion} (e : Event) (s s' : AppState) :
  step e s = Some s' ->
  (view s' = confirmation -> view s <> confirmation ->
     view s = checkout
     /\ exists now random36,
          e = PlaceOrder now random36 /\ lastOrderId s' = Some (orderId now random36))
  /\ (view s' = checkout -> view s <> checkout -> e = MiniCartCheckout).
Proof.
  intros H. apply step_inv in H. destruct H as [En ->].
  rewrite runEffects_view, runEffects_lastOrderId. split; intros V N.
  - destruct e; cbn in V; try congruence.
    + destruct (isLoggedIn (auth s)); cbn in V; congruence.
    + cbn [enabled] in En. rewrite !andb_true_iff in En. destruct En as [_ En].
      apply View_eqb_eq in En. split; [exact En|]. eauto.
  - destruct e; cbn in V; try congruence.
    destruct (isLoggedIn (auth s)); cbn in V; congruence.
Qed.

Lemma confirmation_and_checkout_entry_witness :
  let s := run [MiniCartCheckout] (mount (initialState visitor [])) in
  let s' := dispatch (PlaceOrder 1700000000000 "0.4fzyo82mvyr") s in
  step (PlaceOrder 1700000000000 "0.4fzyo82mvyr") s = Some s'
  /\ view s' = confirmation /\ view s <> confirmation
  /\ view s = checkout.
Proof.
  cbv zeta.
  assert (H1 : step (PlaceOrder 1700000000000 "0.4fzyo82mvyr")
                 (run [MiniCartCheckout] (mount (initialState visitor [])))
               = Some (dispatch (PlaceOrder 1700000000000 "0.4fzyo82mvyr")
                         (run [MiniCartCheckout] (mount (initialState visitor [])))))
    by (vm_compute; reflexivity).
  assert (H2 : view (dispatch (PlaceOrder 1700000000000 "0.4fzyo82mvyr")
                       (run [MiniCartCheckout] (mount (initialState visitor []))))
               = confirmation)
    by (vm_compute; reflexivity).
  assert (H3 : view (run [MiniCartCheckout] (mount (initialState visitor []))) <> confirmation)
    by (vm_compute; discriminate).
  split; [exact H1|]. split; [exact H2|]. split; [exact H3|].
  exact (proj1 (proj1 (confirmation_and_checkout_entry _ _ _ H1) H2 H3)).
Defined.

(** A handler other than the one that places an order keeps the order
    identifier and does not move to the confirmation view. *)
Lemma handle_keeps_order (e : Event) (s : AppState) :
  (exists now random36, e = PlaceOrder now random36)
  \/ (lastOrderId (handle e s) = lastOrderId s
      /\ (view (handle e s) = confirmation -> view s = confirmation)).
Proof.
  destruct e; try (right; cbn; split; [reflexivity | congruence]).
  - right. cbn. destruct (isLoggedIn (auth s)); cbn; split; try reflexivity; congruence.
  - left. eauto.
Qed.

(** X19. Whenever the confirmation view is shown there is an order
    identifier to show, and it is not empty. *)
Theorem confirmation_has_order_id {conversion : JS.CaseConversion} (s : AppState) :
  reachable s -> view s = confirmation ->
  exists orderIdShown,
    lastOrderId s = Some orderIdShown /\ orderIdShown <> ""
    /\ renderCurrentView s = OrderConfirmationView (Some orderIdShown).
Proof.
  intros R.
  assert (Inv : (forall i, lastOrderId s = Some i -> i <> "")
                /\ (view s = confirmation -> exists i, lastOrderId s = Some i)).
  { induction R as [a c | e s s' Hs IH Hstep].
    - rewrite mount_lastOrderId, mount_view. cbn. split; [discriminate | discriminate].
    - apply step_inv in Hstep. destruct Hstep as [_ ->].
      rewrite runEffects_lastOrderId, runEffects_view.
      destruct (handle_keeps_order e s) as [(now & r & ->) | [L V]].
      + cbn. split; [|eauto]. intros i [= <-]. apply orderId_nonempty.
      + rewrite L. destruct IH as [I1 I2]. split; [exact I1|]. intros C. apply I2, V, C. }
  intros V. destruct Inv as [I1 I2]. destruct (I2 V) as [i Hi].
  exists i. split; [exact Hi|]. split; [exact (I1 i Hi)|].
  unfold renderCurrentView. now rewrite V, Hi.
Qed.

Lemma confirmation_has_order_id_witness :
  let s := run [MiniCartCheckout; PlaceOrder 1700000000000 "0.4fzyo82mvyr"; ClickCart]
             (mount (initialState visitor [])) in
  reachable s /\ view s = confirmation
  /\ exists orderIdShown,
       lastOrderId s = Some orderIdShown /\ orderIdShown <> ""
       /\ renderCurrentView s = OrderConfirmationView (Some orderIdShown).
Proof.
  cbv zeta.
  assert (R : reachable (run [MiniCartCheckout; PlaceOrder 1700000000000 "0.4fzyo82mvyr";
                              ClickCart] (mount (initialState visitor []))))
    by apply reachable_run, reachable_mount.
  assert (V : view (run [MiniCartCheckout; PlaceOrder 1700000000000 "0.4fzyo82mvyr";
                         ClickCart] (mount (initialState visitor []))) = confirmation)
    by (vm_compute; reflexivity).
  split; [exact R|]. split; [exact V|].
  exact (confirmation_has_order_id _ R V).
Defined.

(** X20. A logout, from the standard page or from the admin view, ends the
    session and lands on the store view inside the standard page, with the
    footer. *)
Theorem logout_lands_on_store {conversion : JS.CaseConversion} (e : Event) (s s' : AppState) :
  step e s = Some s' -> e = ClickLogout \/ e = AdminLogout ->
  auth s' = mkAuth false None None
  /\ view s' = store
  /\ render s' = StandardPage (StoreView (gridRegion s')) true (isCartOpen s')
                   (isLoginModalOpen s').
Proof.
  intros H E. apply step_inv in H. destruct H as [_ ->].
  assert (A : auth (runEffects s (handle e s)) = mkAuth false None None).
  { rewrite runEffects_auth. destruct E as [-> | ->]; reflexivity. }
  assert (V : view (runEffects s (handle e s)) = store).
  { rewrite runEffects_view. destruct E as [-> | ->]; reflexivity. }
  split; [exact A|]. split; [exact V|].
  unfold render, renderCurrentView. rewrite A, V. reflexivity.
Qed.

Lemma logout_lands_on_store_witness :
  let s := run [NavigateAdmin] (mount (initialState administrator [])) in
  let s' := dispatch AdminLogout s in
  (rendersAdminView s = true /\ step AdminLogout s = Some s')
  /\ (AdminLogout = ClickLogout \/ AdminLogout = AdminLogout)
  /\ auth s' = mkAuth false None None
  /\ view s' = store
  /\ render s' = StandardPage (StoreView (gridRegion s')) true (isCartOpen s')
                   (isLoginModalOpen s').
Proof.
  cbv zeta.
  assert (H1 : step AdminLogout (run [NavigateAdmin] (mount (initialState administrator [])))
               = Some (dispatch AdminLogout
                         (run [NavigateAdmin] (mount (initialState administrator [])))))
    by (vm_compute; reflexivity).
  split; [split; [vm_compute; reflexivity | exact H1]|].
  split; [right; reflexivity|].
  exact (logout_lands_on_store _ _ _ H1 (or_intror eq_refl)).
Defined.

(** X21. No view is a dead end: in every state one event leads to the store
    view (the store navigation of the standard page, or that of the admin
    view when the admin view is shown). *)
Theorem store_one_step_away {conversion : JS.CaseConversion} (s : AppState) :
  exists e s', step e s = Some s' /\ view s' = store
               /\ (e = NavigateStore \/ e = AdminNavigateToStore).
Proof.
  destruct (rendersAdminView s) eqn:A.
  - exists AdminNavigateToStore, (runEffects s (handle AdminNavigateToStore s)).
    unfold step. cbn [enabled]. rewrite A.
    split; [reflexivity|]. split; [now rewrite runEffects_view | now right].
  - exists NavigateStore, (runEffects s (handle NavigateStore s)).
    unfold step. cbn [enabled]. rewrite A.
    split; [reflexivity|]. split; [now rewrite runEffects_view | now left].
Qed.

(** ** The order identifier, continued *)

Lemma length_mapString (f : ascii -> ascii) (s : string) :
  String.length (JS.mapString f s) = String.length s.
Proof. induction s as [|c s IH]; cbn; [reflexivity | now rewrite IH]. Qed.

Lemma length_substr (start len : nat) (s : string) :
  String.length (JS.substr start len s) = Nat.min len (String.length s - start).
Proof.
  revert start len. induction s as [|c s IH]; intros start len.
  - destruct start, len; reflexivity.
  - destruct start as [|start].
    + destruct len as [|len]; [reflexivity|].
      cbn [JS.substr String.length]. rewrite IH. cbn. now rewrite Nat.sub_0_r.
    + cbn [JS.substr String.length]. rewrite IH. destruct len; reflexivity.
Qed.

Lemma nat_of_upperChar (c : ascii) :
  nat_of_ascii (JS.upperChar c) =
  if (97 <=? nat_of_ascii c)%nat && (nat_of_ascii c <=? 122)%nat
  then (nat_of_ascii c - 32)%nat else nat_of_ascii c.
Proof.
  unfold JS.upperChar.
  destruct ((97 <=? nat_of_ascii c)%nat && (nat_of_ascii c <=? 122)%nat) eqn:E; [|reflexivity].
  apply andb_true_iff in E. destruct E as [_ E]. apply Nat.leb_le in E.
  apply nat_ascii_embedding. lia.
Qed.

Lemma upperChar_not_lower (c : ascii) : ~ isLowerCaseLetter (JS.upperChar c).
Proof.
  unfold isLowerCaseLetter. rewrite nat_of_upperChar.
  leb_cases; cbn [andb]; lia.
Qed.

Lemma toUpperCase_noLowerCase (s : string) : noLowerCase (JS.toUpperCase s).
Proof.
  unfold JS.toUpperCase. induction s as [|c s IH]; cbn; [exact I|].
  split; [apply upperChar_not_lower | exact IH].
Qed.

(** X22. The order identifier is the text [ORD-], the clock reading in
    decimal digits, [-], and a suffix taken from the random text: its
    characters 3 to 7, at most five and fewer (down to none) when the
    random text is shorter, with no lower-case letter among them. *)
Theorem order_id_format (now : N) (random36 : string) :
  orderId now random36 = ("ORD-" ++ JS.decimal now ++ "-" ++ orderSuffix random36)%string
  /\ noDash (JS.decimal now)
  /\ String.length (orderSuffix random36) = Nat.min 5 (String.length random36 - 2)
  /\ noLowerCase (orderSuffix random36).
Proof.
  split; [reflexivity|]. split; [apply decimal_noDash|]. split.
  - unfold orderSuffix, JS.toUpperCase. rewrite length_mapString. apply length_substr.
  - apply toUpperCase_noLowerCase.
Qed.

Example order_id_of_zero_random :
  orderId 1700000000000 "0" = "ORD-1700000000000-".
Proof. vm_compute. reflexivity. Qed.

(** ** The derivation on the heap, continued *)

(** X23. Every run of the derivation returns a new array: two runs in a row
    return different arrays, neither of them the product array, and the
    second run leaves the array returned by the first as it was. *)
Theorem derivation_returns_new_array {conversion : JS.CaseConversion} (h : heap) (products : ref)
    (ps : list Product) (f g : Filters) :
  h !! products = Some ps ->
  exists r1 h1 r2 h2,
    filteredAndSortedProducts_ref products f h = Some (r1, h1)
    /\ filteredAndSortedProducts_ref products g h1 = Some (r2, h2)
    /\ r1 <> r2 /\ r1 <> products /\ r2 <> products
    /\ h2 !! r1 = Some (filteredAndSortedProducts ps f)
    /\ h2 !! r2 = Some (filteredAndSortedProducts ps g).
Proof.
  intros Hps.
  destruct (filteredAndSortedProducts_ref_run h products ps f Hps)
    as (r1 & h1 & Hrun1 & Hnew1 & Hres1 & Hkeep1).
  assert (Hne1 : r1 <> products) by (intros ->; congruence).
  assert (Hps1 : h1 !! products = Some ps).
  { rewrite Hkeep1; [assumption | congruence]. }
  destruct (filteredAndSortedProducts_ref_run h1 products ps g Hps1)
    as (r2 & h2 & Hrun2 & Hnew2 & Hres2 & Hkeep2).
  assert (Hne2 : r2 <> products) by (intros ->; congruence).
  assert (Hne : r1 <> r2) by (intros ->; congruence).
  exists r1, h1, r2, h2.
  split; [exact Hrun1|]. split; [exact Hrun2|].
  split; [exact Hne|]. split; [exact Hne1|]. split; [exact Hne2|].
  split; [|exact Hres2].
  rewrite Hkeep2; [exact Hres1 | exact Hne].
Qed.

Lemma derivation_returns_new_array_witness :
  let ps := [sample "a" 10 3; sample "b" 50 5; sample "c" 5 4] in
  let h : heap := {[ 7%nat := ps ]} in
  let f := withSortKey "price_asc" defaultFilters in
  let g := withSortKey "rating_desc" defaultFilters in
  h !! 7%nat = Some ps
  /\ exists r1 h1 r2 h2,
       filteredAndSortedProducts_ref 7%nat f h = Some (r1, h1)
       /\ filteredAndSortedProducts_ref 7%nat g h1 = Some (r2, h2)
       /\ r1 <> r2 /\ r1 <> 7%nat /\ r2 <> 7%nat
       /\ h2 !! r1 = Some (filteredAndSortedProducts ps f)
       /\ h2 !! r2 = Some (filteredAndSortedProducts ps g).
Proof.
  cbv zeta. split; [reflexivity|].
  apply derivation_returns_new_array. reflexivity.
Defined.

(** ** Loading at the mount and at a login *)

(** X24. The first mount starts exactly one product request, whoever the
    caller is, and shows the skeleton of eight placeholders and nothing
    else; it starts a notification request exactly when the caller is logged
    in with a role. *)
Theorem first_mount {conversion : JS.CaseConversion} (a : Auth) (c : list CartItem) :
  productRequests (mount (initialState a c)) = 1%nat
  /\ gridRegion (mount (initialState a c)) = [LoadingSkeleton 8]
  /\ notificationRequests (mount (initialState a c))
     = (if isLoggedIn a && JS.truthy (role a) then 1%nat else 0%nat)
  /\ adminNotifications (mount (initialState a c)) = []
  /\ view (mount (initialState a c)) = store.
Proof.
  unfold mount, initialState, notificationsEffect. cbn [auth].
  destruct (isLoggedIn a && JS.truthy (role a)); repeat split.
Qed.

(** X25. A transition that changes the login state to "logged in with a
    role" starts exactly one notification request and keeps the
    notification list until the response arrives. *)
Theorem login_requests_notifications {conversion : JS.CaseConversion} (e : Event) (s s' : AppState) :
  step e s = Some s' ->
  authDepsChanged s s' = true ->
  isLoggedIn (auth s') && JS.truthy (role (auth s')) = true ->
  notificationRequests s' = S (notificationRequests s)
  /\ adminNotifications s' = adminNotifications s.
Proof.
  intros H. apply step_inv in H. destruct H as [_ ->].
  unfold authDepsChanged. rewrite !runEffects_auth. intros D L.
  destruct (runEffects_logged_in s (handle e s) D L) as [N Q].
  rewrite N, Q.
  assert (A : auth (handle e s) <> auth s).
  { intros A. pose proof (authDepsChanged_same s (handle e s) A) as F.
    unfold authDepsChanged in F. congruence. }
  destruct e; cbn in A |- *; try (exfalso; apply A; reflexivity); try (split; reflexivity).
  destruct (isLoggedIn (auth s)); cbn in A; exfalso; apply A; reflexivity.
Qed.

Lemma login_requests_notifications_witness :
  let s := run [NotificationsResolved [mkNotification "n1" order "New order" "2024-01-01" false]]
             (mount (initialState administrator [])) in
  let s1 := dispatch ClickLogout s in
  let s' := dispatch (AuthChanged administrator) s1 in
  (step (AuthChanged administrator) s1 = Some s'
   /\ authDepsChanged s1 s' = true
   /\ isLoggedIn (auth s') && JS.truthy (role (auth s')) = true)
  /\ notificationRequests s' = S (notificationRequests s1)
  /\ adminNotifications s' = adminNotifications s1.
Proof.
  cbv zeta.
  split; [split; [|split]; vm_compute; reflexivity|].
  apply (login_requests_notifications (AuthChanged administrator)
           (dispatch ClickLogout
              (run [NotificationsResolved
                      [mkNotification "n1" order "New order" "2024-01-01" false]]
                 (mount (initialState administrator []))))).
  - vm_compute. reflexivity.
  - vm_compute. reflexivity.
  - vm_compute. reflexivity.
Defined.
